(** * Control link between the laptop sender (Sfinx.py) and the Pi receiver
    (Defender.py): a shallow embedding of the protocol code and the
    properties of the design document that it satisfies or violates.

    Layout: [Py] models the Python values and builtins the two scripts use,
    [Defender] the receiver, [Sfinx] the sender; the properties follow. *)

From Stdlib Require Import String Ascii.
From Stdlib Require Import ZArith List Bool Lia.
From Stdlib Require Import Floats.SpecFloat.
From Equations.Prop Require Import Equations Logic.
Import ListNotations.
Local Open Scope Z_scope.
Set Warnings "-register-all".

(* ===================================================================== *)
(** * Python values and builtins *)
(* ===================================================================== *)

Module Py.

(** [bytes]: a sequence of octets, each an integer in [0, 255]. *)
Definition bytes := list Z.

(** [str]: a sequence of Unicode code points. *)
Definition str := list Z.

(** A string literal of the source (ASCII only), as a [str]. *)
Definition lit (s : string) : str :=
  map (fun a => Z.of_N (N_of_ascii a)) (list_ascii_of_string s).
Arguments lit s%_string.

Fixpoint str_eqb (a b : str) : bool :=
  match a, b with
  | [], [] => true
  | x :: a', y :: b' => (x =? y) && str_eqb a' b'
  | _, _ => false
  end.

(** Python floats are IEEE 754 binary64 numbers. *)
Definition float := spec_float.
Definition prec : Z := 53.
Definition emax : Z := 1024.
Definition float_of_Z (n : Z) : float := binary_normalize prec emax n 0 false.
Definition fsub : float -> float -> float := SFsub prec emax.
Definition fmul : float -> float -> float := SFmul prec emax.
Definition fdiv : float -> float -> float := SFdiv prec emax.
(** [a >= b] on floats. *)
Definition fge (a b : float) : bool := SFleb b a.

(** The values [json.loads] produces (and the defaults the scripts mix with
    them): None, bool, int, float, str, list and dict.  A dict keeps its
    insertion order, so it is an association list. *)
Inductive value : Type :=
| VNone
| VBool (b : bool)
| VInt (n : Z)
| VFloat (f : float)
| VStr (s : str)
| VList (l : list value)
| VDict (d : list (str * value)).

(** The exceptions that occur in the modelled code. *)
Inductive exn : Type :=
| AttributeError
| TypeError
| ValueError
| OverflowError
| OSError
| JSONDecodeError
| RecursionError
| UnicodeEncodeError.

Inductive result (A : Type) : Type :=
| Ok (a : A)
| Raise (e : exn).
Arguments Ok {A} a.
Arguments Raise {A} e.

Definition bind {A B : Type} (r : result A) (k : A -> result B) : result B :=
  match r with
  | Ok a => k a
  | Raise e => Raise e
  end.

Notation "'do' x <- r ; k" := (bind r (fun x => k))
  (at level 10, x name, r at level 100, k at level 200).

(** Truth value of an object, as [if v], [v or d] and list filters use it. *)
Definition truthy (v : value) : bool :=
  match v with
  | VNone => false
  | VBool b => b
  | VInt n => negb (n =? 0)
  | VFloat (S754_zero _) => false
  | VFloat _ => true
  | VStr s => negb (Nat.eqb (length s) 0)
  | VList l => negb (Nat.eqb (length l) 0)
  | VDict d => negb (Nat.eqb (length d) 0)
  end.

(** [a or b]. *)
Definition py_or (a b : value) : value := if truthy a then a else b.

(** [d.get(k, default)] on the entries of a dict. *)
Fixpoint dict_get (d : list (str * value)) (k : str) (default : value) : value :=
  match d with
  | [] => default
  | (k', v) :: d' => if str_eqb k' k then v else dict_get d' k default
  end.

(** [d[k] = v]: replaces the entry in place, or appends a new one. *)
Fixpoint dict_set (d : list (str * value)) (k : str) (v : value) : list (str * value) :=
  match d with
  | [] => [(k, v)]
  | (k', v') :: d' => if str_eqb k' k then (k', v) :: d' else (k', v') :: dict_set d' k v
  end.

(** [v.get(k, default)]: only a dict has the method. *)
Definition get (v : value) (k : str) (default : value) : result value :=
  match v with
  | VDict d => Ok (dict_get d k default)
  | _ => Raise AttributeError
  end.

(** [v == "literal"]: a value equals a str only if it is that str. *)
Definition eq_str (v : value) (s : str) : bool :=
  match v with
  | VStr s' => str_eqb s' s
  | _ => false
  end.

(** ** Text written by f-strings.

    An f-string interpolates [str(v)] of arbitrary values; the rendering of
    a value is kept symbolic ([StrOf v]), the literal parts and the strings
    the code has computed itself are characters. *)
Inductive piece : Type :=
| Chars (s : str)
| StrOf (v : value)
| ExcOf (e : exn).

Definition text := list piece.

(** ** [print] on a UTF-8 [sys.stdout]

    [print] encodes the whole text before it writes any of it, and the
    UTF-8 codec refuses a surrogate code point (U+D800..U+DFFF), which a
    str can hold on its own (JSON's [\ud800] escape decodes to one).
    [str()] of a number, of [None], or of a list or dict (whose strs are
    shown by [repr], which escapes surrogates) holds none; nor does the
    message of an exception. *)
Definition is_surrogate (c : Z) : bool := (0xD800 <=? c) && (c <=? 0xDFFF).

Definition unencodable_piece (p : piece) : bool :=
  match p with
  | Chars s => existsb is_surrogate s
  | StrOf (VStr s) => existsb is_surrogate s
  | StrOf _ => false
  | ExcOf _ => false
  end.

(** Whether [print(t)] raises [UnicodeEncodeError]. *)
Definition unencodable (t : text) : bool := existsb unencodable_piece t.

(** ** Decimal rendering *)

Fixpoint uint_chars (u : Decimal.uint) : str :=
  match u with
  | Decimal.Nil => []
  | Decimal.D0 u => 48 :: uint_chars u
  | Decimal.D1 u => 49 :: uint_chars u
  | Decimal.D2 u => 50 :: uint_chars u
  | Decimal.D3 u => 51 :: uint_chars u
  | Decimal.D4 u => 52 :: uint_chars u
  | Decimal.D5 u => 53 :: uint_chars u
  | Decimal.D6 u => 54 :: uint_chars u
  | Decimal.D7 u => 55 :: uint_chars u
  | Decimal.D8 u => 56 :: uint_chars u
  | Decimal.D9 u => 57 :: uint_chars u
  end.

(** The decimal digits of a natural number. *)
Definition digits (n : Z) : str := uint_chars (N.to_uint (Z.to_N n)).

(** [m * 2^e * scale] rounded to the nearest integer, ties to even: the
    correctly rounded scaling that fixed-point formatting performs. *)
Definition round_scaled (m : positive) (e : Z) (scale : Z) : Z :=
  let num := Zpos m * scale in
  if 0 <=? e then num * 2 ^ e
  else
    let den := 2 ^ (- e) in
    let q := num / den in
    let r := num mod den in
    match 2 * r ?= den with
    | Lt => q
    | Gt => q + 1
    | Eq => if Z.even q then q else q + 1
    end.

(** [f"{x:.{places}f}"]. *)
Definition format_f (x : float) (places : nat) : str :=
  let sign (s : bool) := if s then lit "-" else [] in
  let fixed (n : Z) :=
    let scale := 10 ^ Z.of_nat places in
    let frac := digits (n mod scale) in
    digits (n / scale) ++
    match places with
    | O => []
    | _ => lit "." ++ repeat 48 (places - length frac) ++ frac
    end in
  match x with
  | S754_nan => lit "nan"
  | S754_infinity s => sign s ++ lit "inf"
  | S754_zero s => sign s ++ fixed 0
  | S754_finite s m e => sign s ++ fixed (round_scaled m e (10 ^ Z.of_nat places))
  end.

(** ** [bytes.decode("utf-8", errors="replace")]

    CPython's decoder: a well-formed sequence gives its code point; an
    invalid start byte, or a lead byte with the longest run of valid
    continuation bytes that follows it, gives one U+FFFD, and decoding
    resumes right after the replaced bytes. *)
Definition REPLACEMENT : Z := 0xFFFD.

Definition is_cont (b : Z) : bool := (0x80 <=? b) && (b <? 0xC0).

(** Second byte refused after a three-byte lead: not a continuation byte,
    an overlong form (E0 80..9F) or a surrogate (ED A0..BF). *)
Definition bad_second3 (b0 b1 : Z) : bool :=
  negb (is_cont b1) || (if b1 <? 0xA0 then b0 =? 0xE0 else b0 =? 0xED).

(** Second byte refused after a four-byte lead: not a continuation byte,
    an overlong form (F0 80..8F) or beyond U+10FFFF (F4 90..BF). *)
Definition bad_second4 (b0 b1 : Z) : bool :=
  negb (is_cont b1) || (if b1 <? 0x90 then b0 =? 0xF0 else b0 =? 0xF4).

Fixpoint utf8_decode (bs : bytes) : str :=
  match bs with
  | [] => []
  | b0 :: r0 =>
    if b0 <? 0x80 then b0 :: utf8_decode r0
    else if b0 <? 0xC2 then REPLACEMENT :: utf8_decode r0
    else if b0 <? 0xE0 then
      match r0 with
      | [] => [REPLACEMENT]
      | b1 :: r1 =>
        if is_cont b1
        then ((b0 - 0xC0) * 64 + (b1 - 0x80)) :: utf8_decode r1
        else REPLACEMENT :: utf8_decode r0
      end
    else if b0 <? 0xF0 then
      match r0 with
      | [] => [REPLACEMENT]
      | b1 :: r1 =>
        if bad_second3 b0 b1 then REPLACEMENT :: utf8_decode r0
        else
          match r1 with
          | [] => [REPLACEMENT]
          | b2 :: r2 =>
            if is_cont b2
            then ((b0 - 0xE0) * 4096 + (b1 - 0x80) * 64 + (b2 - 0x80)) :: utf8_decode r2
            else REPLACEMENT :: utf8_decode r1
          end
      end
    else if b0 <? 0xF5 then
      match r0 with
      | [] => [REPLACEMENT]
      | b1 :: r1 =>
        if bad_second4 b0 b1 then REPLACEMENT :: utf8_decode r0
        else
          match r1 with
          | [] => [REPLACEMENT]
          | b2 :: r2 =>
            if negb (is_cont b2) then REPLACEMENT :: utf8_decode r1
            else
              match r2 with
              | [] => [REPLACEMENT]
              | b3 :: r3 =>
                if is_cont b3
                then ((b0 - 0xF0) * 262144 + (b1 - 0x80) * 4096
                      + (b2 - 0x80) * 64 + (b3 - 0x80)) :: utf8_decode r3
                else REPLACEMENT :: utf8_decode r2
              end
          end
      end
    else REPLACEMENT :: utf8_decode r0
  end.

(** ** [str.strip()]

    Whitespace is what [str.isspace] accepts: the ASCII controls 9..13 and
    28..31, the space, and the Unicode separators. *)
Definition is_space (c : Z) : bool :=
  ((9 <=? c) && (c <=? 13)) || ((28 <=? c) && (c <=? 32))
  || (c =? 0x85) || (c =? 0xA0) || (c =? 0x1680)
  || ((0x2000 <=? c) && (c <=? 0x200A))
  || (c =? 0x2028) || (c =? 0x2029) || (c =? 0x202F) || (c =? 0x205F)
  || (c =? 0x3000).

Fixpoint lstrip (s : str) : str :=
  match s with
  | [] => []
  | c :: s' => if is_space c then lstrip s' else s
  end.

Definition rstrip (s : str) : str := rev (lstrip (rev s)).

Definition strip (s : str) : str := rstrip (lstrip s).

End Py.

(* ===================================================================== *)
(** * Defender.py: the receiver *)
(* ===================================================================== *)

Module Defender.
Import Py.

Section Builtins.

(** [json.loads(line)]: the value decoded, or the exception raised:
    [JSONDecodeError] for a line that is not JSON, and for some lines
    another one ([RecursionError] for brackets nested too deep,
    [ValueError] for an integer of more digits than the interpreter
    converts). *)
Variable json_loads : str -> result value.

(** [float(s)] on a str: [None] stands for [ValueError]. *)
Variable float_of_str : str -> option float.

(** [float(val)]. *)
Definition py_float (val : value) : result float :=
  match val with
  | VNone => Raise TypeError
  | VBool b => Ok (float_of_Z (if b then 1 else 0))
  | VInt n =>
    match float_of_Z n with
    | S754_infinity _ => Raise OverflowError
    | x => Ok x
    end
  | VFloat x => Ok x
  | VStr s =>
    match float_of_str s with
    | Some x => Ok x
    | None => Raise ValueError
    end
  | VList _ => Raise TypeError
  | VDict _ => Raise TypeError
  end.

(** <<
def fmt_float(val, places=3):
    try:
        return f"{float(val):.{places}f}"
    except Exception:
        return "na"
>> *)
Definition fmt_float (val : value) (places : nat) : str :=
  match py_float val with
  | Ok x => format_f x places
  | Raise _ => lit "na"
  end.

(** [sep.join(l)]. *)
Fixpoint join (sep : str) (l : list str) : str :=
  match l with
  | [] => []
  | [s] => s
  | s :: l' => s ++ sep ++ join sep l'
  end.

(** [[k for k, v in btns.items() if v]]. *)
Fixpoint pressed_names (d : list (str * value)) : list str :=
  match d with
  | [] => []
  | (k, v) :: d' => if truthy v then k :: pressed_names d' else pressed_names d'
  end.

(** <<
def pressed_buttons(btns):
    if not isinstance(btns, dict):
        return "-"
    return ",".join([k for k, v in btns.items() if v]) or "-"
>> *)
Definition pressed_buttons (btns : value) : str :=
  match btns with
  | VDict d =>
    match join (lit ",") (pressed_names d) with
    | [] => lit "-"
    | s => s
    end
  | _ => lit "-"
  end.

(** [build_line(msg)], lines 89-113.  [msg.get("axes", {}) or {}] keeps any
    truthy value, a dict or not; the [.get] calls on it follow. *)
Definition build_line (msg : value) : result text :=
  do mtype <- get msg (lit "type") (VStr (lit "?"));
  do ts <- get msg (lit "ts") (VStr []);
  do seq <- get msg (lit "seq") (VStr []);
  do axes0 <- get msg (lit "axes") (VDict []);
  let axes := py_or axes0 (VDict []) in
  do dpad0 <- get msg (lit "dpad") (VDict []);
  let dpad := py_or dpad0 (VDict []) in
  do lx <- get axes (lit "lx") VNone;
  do ly <- get axes (lit "ly") VNone;
  do rx <- get axes (lit "rx") VNone;
  do ry <- get axes (lit "ry") VNone;
  do lt <- get axes (lit "lt") VNone;
  do rt <- get axes (lit "rt") VNone;
  do dx <- get dpad (lit "x") (VInt 0);
  do dy <- get dpad (lit "y") (VInt 0);
  do buttons <- get msg (lit "buttons") (VDict []);
  let btns := pressed_buttons buttons in
  Ok [ Chars (lit "["); StrOf mtype; Chars (lit "] seq="); StrOf seq;
       Chars (lit " ts="); StrOf ts; Chars (lit "  ");
       Chars (lit "axes(lx="); Chars (fmt_float lx 3);
       Chars (lit " ly="); Chars (fmt_float ly 3);
       Chars (lit "  rx="); Chars (fmt_float rx 3);
       Chars (lit " ry="); Chars (fmt_float ry 3);
       Chars (lit "  lt="); Chars (fmt_float lt 3);
       Chars (lit " rt="); Chars (fmt_float rt 3); Chars (lit ")  ");
       Chars (lit "dpad(x="); StrOf dx; Chars (lit " y="); StrOf dy;
       Chars (lit ")  ");
       Chars (lit "pressed=["); Chars btns; Chars (lit "]") ].

(** ** Frame reassembly *)

Definition NL : Z := 10.

(** [buf.find(b"\n")] scanning from index [i]: the index of the first
    newline, or [-1]. *)
Fixpoint find_from (buf : bytes) (i : Z) : Z :=
  match buf with
  | [] => -1
  | b :: buf' => if b =? NL then i else find_from buf' (i + 1)
  end.

Definition find_nl (buf : bytes) : Z := find_from buf 0.

Lemma find_from_range (buf : bytes) (i : Z) :
  find_from buf i = -1 \/ i <= find_from buf i < i + Z.of_nat (length buf).
Proof.
  revert i; induction buf as [|b buf IH]; intro i; simpl; [now left|].
  destruct (b =? NL); [right; lia|].
  destruct (IH (i + 1)) as [H|H]; [now left | right; lia].
Qed.

(** The inner loop of [recv_lines] (lines 123-132): while the buffer holds
    a newline, cut the line before it off the buffer and yield it decoded
    and stripped.  Returns the lines yielded and the buffer left. *)
Equations? drain (buf : bytes) : list str * bytes by wf (length buf) lt :=
  drain buf with inspect (find_nl buf =? -1) := {
    | exist _ true _ => ([], buf)
    | exist _ false Hnl =>
      let nl := find_nl buf in
      let line := firstn (Z.to_nat nl) buf in
      let '(ys, buf') := drain (skipn (Z.to_nat (nl + 1)) buf) in
      (strip (utf8_decode line) :: ys, buf') }.
Proof.
  apply Z.eqb_neq in Hnl.
  destruct (find_from_range buf 0) as [H|H]; [contradiction|].
  fold (find_nl buf) in H.
  rewrite length_skipn. lia.
Qed.

(** [recv_lines(sock)], lines 115-132.  The socket is the list of what the
    successive [sock.recv(4096)] calls return; a zero-byte read (an empty
    result, or the end of the list) is the peer's close and ends the
    generator, whatever the buffer still holds. *)
Fixpoint recv_loop (buf : bytes) (sock : list bytes) : list str :=
  match sock with
  | [] => []
  | chunk :: sock' =>
    match chunk with
    | [] => []
    | _ =>
      let '(ys, buf') := drain (buf ++ chunk) in
      ys ++ recv_loop buf' sock'
    end
  end.

Definition recv_lines (sock : list bytes) : list str := recv_loop [] sock.

(** ** Serving one connection *)

(** What the handler does to the outside: lines printed, [conn.sendall] of
    the line [json.dumps(obj) + "\n"], which returns ([Sendall]) or raises
    [OSError] ([SendallRaised]), and the close at the end of [with conn]. *)
Inductive event : Type :=
| Stdout (t : text)
| Sendall (obj : value)
| SendallRaised (obj : value)
| ConnClose.

(** [print(t)] of a line that shows strs of the decoded message: the line
    written, or the exception raised before anything is written.  The
    other lines of the handler show the peer's address, a frame or the
    message of an exception, which hold no surrogate: they are written as
    [Stdout] events directly. *)
Definition print (t : text) : result event :=
  if unencodable t then Raise UnicodeEncodeError else Ok (Stdout t).

(** A connection: what its [recv] calls return, and whether each of its
    successive [sendall] calls succeeds (it does once the list is used up). *)
Record conn : Type := { rx : list bytes; tx_ok : list bool }.

(** [peer = f"{addr[0]}:{addr[1]}"]. *)
Definition peer_of (addr : str * Z) : text :=
  [StrOf (VStr (fst addr)); Chars (lit ":"); StrOf (VInt (snd addr))].

(** The ack branch, lines 150-155. *)
Definition send_ack_for (tx : list bool) (msg : value) : list event * list bool :=
  match get msg (lit "seq") VNone with
  | Raise e => ([Stdout [Chars (lit "(warn) failed to send ack: "); ExcOf e]], tx)
  | Ok seq =>
    let ack := VDict [(lit "type", VStr (lit "ack")); (lit "seq", seq)] in
    match tx with
    | false :: tx' =>
      ([SendallRaised ack;
        Stdout [Chars (lit "(warn) failed to send ack: "); ExcOf OSError]], tx')
    | _ => ([Sendall ack], tl tx)
    end
  end.

(** The dispatch on the message type, lines 147-162: the events, the send
    outcomes left, and the exception that escapes, if any.  The line of an
    input and the notice of a heartbeat show strs of the message, and their
    [print] raises on a lone surrogate, before the ack is sent.  The line
    of the unknown branch is a frame, which [decode(errors="replace")] has
    left without surrogates (see [frames_hold_no_surrogate]). *)
Definition dispatch (show_heartbeats send_ack : bool) (tx : list bool)
    (line : str) (msg : value) : list event * list bool * option exn :=
  match get msg (lit "type") VNone with
  | Raise e => ([], tx, Some e)
  | Ok mtype =>
    if eq_str mtype (lit "input") then
      match (do t <- build_line msg; print t) with
      | Raise e => ([], tx, Some e)
      | Ok ev =>
        if send_ack then
          let '(evs, tx') := send_ack_for tx msg in
          (ev :: evs, tx', None)
        else ([ev], tx, None)
      end
    else if eq_str mtype (lit "heartbeat") then
      if show_heartbeats then
        match (do ts <- get msg (lit "ts") (VStr []);
               do seq <- get msg (lit "seq") (VStr []);
               print [Chars (lit "[heartbeat] seq="); StrOf seq;
                      Chars (lit " ts="); StrOf ts]) with
        | Raise e => ([], tx, Some e)
        | Ok ev => ([ev], tx, None)
        end
      else ([], tx, None)
    else ([Stdout [Chars (lit "[unknown] "); Chars line]], tx, None)
  end.

Definition warn_bad_json (peer : text) (line : str) : text :=
  [Chars (lit "(warn) bad json from ")] ++ peer
  ++ [Chars (lit ": "); Chars (firstn 120 line); Chars (lit "...")].

(** The body of the [for] loop, lines 139-162, for one yielded line.
    [except json.JSONDecodeError] catches that exception only: any other
    one that [json.loads] raises leaves the loop.  The warning shows the
    peer and the first 120 characters of the frame. *)
Definition handle_line (peer : text) (show_heartbeats send_ack : bool)
    (tx : list bool) (line : str) : list event * list bool * option exn :=
  match line with
  | [] => ([], tx, None)
  | _ =>
    match json_loads line with
    | Ok msg => dispatch show_heartbeats send_ack tx line msg
    | Raise JSONDecodeError => ([Stdout (warn_bad_json peer line)], tx, None)
    | Raise e => ([], tx, Some e)
    end
  end.

(** The [for] loop over the yielded lines: an exception that escapes the
    body ends it. *)
Fixpoint handle_lines (peer : text) (show_heartbeats send_ack : bool)
    (tx : list bool) (lines : list str) : list event * option exn :=
  match lines with
  | [] => ([], None)
  | line :: lines' =>
    let '(evs, tx', e) := handle_line peer show_heartbeats send_ack tx line in
    match e with
    | Some _ => (evs, e)
    | None =>
      let '(evs', e') := handle_lines peer show_heartbeats send_ack tx' lines' in
      (evs ++ evs', e')
    end
  end.

(** [handle_client(conn, addr, show_heartbeats, send_ack)], lines 134-164:
    the events in order, and the exception that propagates to [serve], if
    any.  [with conn] closes the connection on both ways out; the
    disconnect notice is printed on the normal one only.  The two notices
    show the peer's address as [accept] returns it (the text of an IP
    address, and a port number). *)
Definition handle_client (c : conn) (addr : str * Z)
    (show_heartbeats send_ack : bool) : list event * option exn :=
  let peer := peer_of addr in
  let '(evs, e) :=
    handle_lines peer show_heartbeats send_ack (tx_ok c) (recv_lines (rx c)) in
  (Stdout ([Chars (lit "Client connected: ")] ++ peer) :: evs ++ [ConnClose]
   ++ match e with
      | None => [Stdout ([Chars (lit "Client disconnected: ")] ++ peer)]
      | Some _ => []
      end,
   e).

End Builtins.

(** ** The connection seen with a clock

    A blocking [recv] returns when data arrives or the peer closes; the
    socket that [accept] returns has no timeout set.  A timed connection
    records, for each [recv] call, how long it blocked (in milliseconds)
    before it returned its bytes. *)
Record arrival : Type := { waited_ms : Z; data : bytes }.

Definition untimed (rxs : list arrival) (tx : list bool) : conn :=
  {| rx := map data rxs; tx_ok := tx |}.

Definition handle_client_timed (json_loads : str -> result value)
    (float_of_str : str -> option float) (rxs : list arrival) (tx : list bool)
    (addr : str * Z) (show_heartbeats send_ack : bool) : list event * option exn :=
  handle_client json_loads float_of_str (untimed rxs tx) addr show_heartbeats send_ack.

End Defender.

(* ===================================================================== *)
(** * Sfinx.py: the sender *)
(* ===================================================================== *)

Module Sfinx.
Import Py.

Definition POLL_HZ : float := float_of_Z 60.
Definition HEARTBEAT_MS : Z := 500.

(** What the sender does on its control channel: [sock.sendall] of the
    line [json.dumps(obj) + "\n"], returning normally ([Sent]) or raising
    [OSError] ([SendFailed]), and the lines that the control client and the
    end of [run] print on the console.  The panel that [init_joystick]
    prints and the table that [live.update] renders at every pass are not
    recorded. *)
Inductive event : Type :=
| Sent (obj : value)
| SendFailed (obj : value)
| Console (t : text).

(** [ControlClient]: [sock] is whether [self.sock] holds a socket.  The
    host, the port and the timeout only reach [socket.create_connection],
    whose outcome [connect] takes as a parameter. *)
Record ControlClient : Type := { sock : bool; seq : Z }.

(** [ControlClient(host, port)], lines 77-80. *)
Definition new_client : ControlClient := {| sock := false; seq := 0 |}.

(** [connect], lines 82-90; [ok] is whether [socket.create_connection]
    returns a socket. *)
Definition connect (ok : bool) (c : ControlClient) : ControlClient * list event :=
  if ok
  then ({| sock := true; seq := seq c |}, [Console [Chars (lit "Connected CONTROL")]])
  else ({| sock := false; seq := seq c |},
        [Console [Chars (lit "CONTROL connect failed:"); ExcOf OSError]]).

(** [close], lines 92-98. *)
Definition close (c : ControlClient) : ControlClient :=
  {| sock := false; seq := seq c |}.

(** <<
def next_seq(self) -> int:
    self.seq = (self.seq + 1) & 0xFFFFFFFF
    return self.seq
>> *)
Definition next_seq (c : ControlClient) : ControlClient * Z :=
  let s := Z.land (seq c + 1) 0xFFFFFFFF in
  ({| sock := sock c; seq := s |}, s).

(** [send_json_line], lines 104-112; [ok] is whether [sendall] returns
    normally. *)
Definition send_json_line (c : ControlClient) (obj : value) (ok : bool)
    : ControlClient * list event :=
  if negb (sock c) then (c, [])
  else if ok then (c, [Sent obj])
  else (close c,
        [SendFailed obj; Console [Chars (lit "CONTROL send failed:"); ExcOf OSError]]).

(** What one pass of the loop reads from the outside: the controller (the
    results of the [_axis] calls, the buttons the device has, among the
    first eleven, and its first hat if it has one), the two clocks and
    the fate of a [sendall]. *)
Record tick : Type := {
  ts : str;                      (* datetime.now(...).isoformat() in read_sample *)
  hb_ts : str;                   (* the same clock, read in heartbeat_message *)
  axis_lx : float; axis_ly : float; axis_rx : float; axis_ry : float;
  axis_lt : float; axis_rt : float;
  buttons : list Z;              (* int(js.get_button(i)) for i < nbtn *)
  hat : option (Z * Z);          (* js.get_hat(0) when js.get_numhats() > 0 *)
  now : float;                   (* time.perf_counter() *)
  send_ok : bool
}.

Definition btn_names : list str :=
  [lit "a"; lit "b"; lit "x"; lit "y"; lit "lb"; lit "rb"; lit "back";
   lit "start"; lit "xbox"; lit "ls"; lit "rs"].

(** [read_sample(js)], lines 207-242: the entries of the dict. *)
Definition read_sample (tk : tick) : list (str * value) :=
  [ (lit "type", VStr (lit "input"));
    (lit "ts", VStr (ts tk));
    (lit "seq", VInt 0);
    (lit "axes", VDict [ (lit "lx", VFloat (axis_lx tk)); (lit "ly", VFloat (axis_ly tk));
                         (lit "rx", VFloat (axis_rx tk)); (lit "ry", VFloat (axis_ry tk));
                         (lit "lt", VFloat (axis_lt tk)); (lit "rt", VFloat (axis_rt tk)) ]);
    (lit "buttons", VDict (combine btn_names (map VInt (buttons tk))));
    (lit "dpad", VDict match hat tk with
                       | Some (hx, hy) => [(lit "x", VInt hx); (lit "y", VInt hy)]
                       | None => [(lit "x", VInt 0); (lit "y", VInt 0)]
                       end);
    (lit "meta", VDict [(lit "battery", VNone); (lit "connected", VBool true)]) ].

(** [heartbeat_message(seq)], lines 266-267. *)
Definition heartbeat_message (stamp : str) (s : Z) : value :=
  VDict [ (lit "type", VStr (lit "heartbeat")); (lit "ts", VStr stamp);
          (lit "seq", VInt s) ].

(** The local variables of [run] that the loop updates. *)
Record loop_state : Type := {
  control : ControlClient;
  last_send : float;
  last_any : float
}.

(** [enable_control and control.sock and (now - last_send) >= (1.0 / POLL_HZ)],
    line 294. *)
Definition rate_gate (enable_control : bool) (st : loop_state) (tk : tick) : bool :=
  enable_control && sock (control st)
  && fge (fsub (now tk) (last_send st)) (fdiv (float_of_Z 1) POLL_HZ).

(** [enable_control and control.sock and (now - last_any) * 1000.0 >= HEARTBEAT_MS],
    line 301. *)
Definition idle_gate (enable_control : bool) (st : loop_state) (tk : tick) : bool :=
  enable_control && sock (control st)
  && fge (fmul (fsub (now tk) (last_any st)) (float_of_Z 1000)) (float_of_Z HEARTBEAT_MS).

(** One pass of the [while True] loop, lines 288-304 (the table, the video
    poll and the sleep have no part in the protocol). *)
Definition iteration (enable_control : bool) (st : loop_state) (tk : tick)
    : loop_state * list event :=
  let sample := read_sample tk in
  if rate_gate enable_control st tk then
    let '(c1, s) := next_seq (control st) in
    let sample := dict_set sample (lit "seq") (VInt s) in
    let '(c2, evs) := send_json_line c1 (VDict sample) (send_ok tk) in
    ({| control := c2; last_send := now tk; last_any := now tk |}, evs)
  else if idle_gate enable_control st tk then
    let '(c1, s) := next_seq (control st) in
    let hb := heartbeat_message (hb_ts tk) s in
    let '(c2, evs) := send_json_line c1 hb (send_ok tk) in
    ({| control := c2; last_send := last_send st; last_any := now tk |}, evs)
  else (st, []).

(** The passes of the loop until Ctrl+C. *)
Fixpoint loop (enable_control : bool) (st : loop_state) (ticks : list tick)
    : loop_state * list event :=
  match ticks with
  | [] => (st, [])
  | tk :: ticks' =>
    let '(st1, evs1) := iteration enable_control st tk in
    let '(st2, evs2) := loop enable_control st1 ticks' in
    (st2, evs1 ++ evs2)
  end.

(** The set-up of [run], lines 275-280: [t0] is the first reading of
    [time.perf_counter()], [connect_ok] the fate of the one [connect]. *)
Definition start (enable_control connect_ok : bool) (t0 : float)
    : loop_state * list event :=
  let '(c, evs) :=
    if enable_control then connect connect_ok new_client else (new_client, []) in
  ({| control := c; last_send := S754_zero false; last_any := t0 |}, evs).

(** [run], lines 271-318, from the point where [init_joystick] has
    returned the device (with no gamepad it ends the process, before the
    client is made) and up to the [finally] clause: the control channel of
    the run. *)
Definition run (enable_control connect_ok : bool) (t0 : float) (ticks : list tick)
    : loop_state * list event :=
  let '(st0, evs0) := start enable_control connect_ok t0 in
  let '(st1, evs1) := loop enable_control st0 ticks in
  ({| control := close (control st1);
      last_send := last_send st1; last_any := last_any st1 |},
   evs0 ++ evs1 ++ [Console [Chars (lit "Goodbye!")]]).

(** The objects handed to [sendall], in order, and those that went out. *)
Fixpoint attempts (evs : list event) : list value :=
  match evs with
  | [] => []
  | Sent o :: evs' => o :: attempts evs'
  | SendFailed o :: evs' => o :: attempts evs'
  | Console _ :: evs' => attempts evs'
  end.

Fixpoint sent (evs : list event) : list value :=
  match evs with
  | [] => []
  | Sent o :: evs' => o :: sent evs'
  | _ :: evs' => sent evs'
  end.

(** [obj["type"]] and [obj["seq"]] of a message on the wire. *)
Definition msg_type (obj : value) : value :=
  match obj with
  | VDict d => dict_get d (lit "type") VNone
  | _ => VNone
  end.

Definition msg_seq (obj : value) : value :=
  match obj with
  | VDict d => dict_get d (lit "seq") VNone
  | _ => VNone
  end.

Definition is_input (obj : value) : bool := eq_str (msg_type obj) (lit "input").
Definition is_heartbeat (obj : value) : bool := eq_str (msg_type obj) (lit "heartbeat").

End Sfinx.

(* ===================================================================== *)
(** * Facts about the builtins *)
(* ===================================================================== *)

Module PyFacts.
Import Py.

Lemma str_eqb_refl (s : str) : str_eqb s s = true.
Proof. induction s as [|c s IH]; simpl; [reflexivity|]. now rewrite Z.eqb_refl. Qed.

Lemma str_eqb_eq (a b : str) : str_eqb a b = true <-> a = b.
Proof.
  split; [|intros ->; apply str_eqb_refl].
  revert b; induction a as [|x a IH]; intros [|y b]; simpl; try discriminate; [reflexivity|].
  intros H; apply andb_true_iff in H as [Hx Hab].
  apply Z.eqb_eq in Hx; subst; f_equal; auto.
Qed.

(** *** Decoding *)

(** A byte below 0x80 after any bytes decodes to itself: it ends whatever
    sequence was open, with the replacement the end of the input gives. *)
Lemma utf8_decode_ascii_last_aux (c : Z) (n : nat) :
  (c <? 0x80) = true ->
  forall bs, (length bs <= n)%nat -> utf8_decode (bs ++ [c]) = utf8_decode bs ++ [c].
Proof.
  intros Hc.
  assert (Hcont : is_cont c = false).
  { unfold is_cont. apply Z.ltb_lt in Hc. apply andb_false_iff. left. apply Z.leb_gt. lia. }
  assert (H3 : forall b, bad_second3 b c = true) by (intro; unfold bad_second3; now rewrite Hcont).
  assert (H4 : forall b, bad_second4 b c = true) by (intro; unfold bad_second4; now rewrite Hcont).
  induction n as [|n IH]; intros bs Hlen.
  - destruct bs; [simpl; now rewrite Hc | simpl in Hlen; lia].
  - destruct bs as [|b0 r0]; [simpl; now rewrite Hc|].
    assert (IH0 : utf8_decode (r0 ++ [c]) = utf8_decode r0 ++ [c]) by (apply IH; simpl in Hlen; lia).
    cbn [app utf8_decode].
    destruct (b0 <? 128); [now rewrite IH0|].
    destruct (b0 <? 194); [now rewrite IH0|].
    destruct (b0 <? 224).
    { destruct r0 as [|b1 r1]; cbn [app] in *.
      - rewrite Hcont. simpl. now rewrite Hc.
      - destruct (is_cont b1); [|now rewrite IH0].
        rewrite IH; [reflexivity | simpl in Hlen; lia]. }
    destruct (b0 <? 240).
    { destruct r0 as [|b1 r1]; cbn [app] in *.
      - rewrite H3. simpl. now rewrite Hc.
      - destruct (bad_second3 b0 b1); [now rewrite IH0|].
        assert (IH1 : utf8_decode (r1 ++ [c]) = utf8_decode r1 ++ [c]) by (apply IH; simpl in Hlen; lia).
        destruct r1 as [|b2 r2]; cbn [app] in *.
        + rewrite Hcont. simpl. now rewrite Hc.
        + destruct (is_cont b2); [|now rewrite IH1].
          rewrite IH; [reflexivity | simpl in Hlen; lia]. }
    destruct (b0 <? 245); [|now rewrite IH0].
    destruct r0 as [|b1 r1]; cbn [app] in *.
    + rewrite H4. simpl. now rewrite Hc.
    + destruct (bad_second4 b0 b1); [now rewrite IH0|].
      assert (IH1 : utf8_decode (r1 ++ [c]) = utf8_decode r1 ++ [c]) by (apply IH; simpl in Hlen; lia).
      destruct r1 as [|b2 r2]; cbn [app] in *.
      * rewrite Hcont. simpl. now rewrite Hc.
      * destruct (is_cont b2); cbn [negb]; [|now rewrite IH1].
        assert (IH2 : utf8_decode (r2 ++ [c]) = utf8_decode r2 ++ [c]) by (apply IH; simpl in Hlen; lia).
        destruct r2 as [|b3 r3]; cbn [app] in *.
        -- rewrite Hcont. simpl. now rewrite Hc.
        -- destruct (is_cont b3); [|now rewrite IH2].
           rewrite IH; [reflexivity | simpl in Hlen; lia].
Qed.

Lemma utf8_decode_ascii_last (bs : bytes) (c : Z) :
  (c <? 0x80) = true -> utf8_decode (bs ++ [c]) = utf8_decode bs ++ [c].
Proof. intro Hc; now apply (utf8_decode_ascii_last_aux c (length bs) Hc bs). Qed.

(** *** Stripping *)

Lemma lstrip_app_nonspace (s : str) (c : Z) :
  is_space c = false -> lstrip (s ++ [c]) = lstrip s ++ [c].
Proof.
  intro Hc; induction s as [|x s IH]; simpl; [now rewrite Hc|].
  destruct (is_space x); [exact IH | reflexivity].
Qed.

Lemma lstrip_app_space (s : str) (c : Z) :
  is_space c = true ->
  lstrip (s ++ [c]) = lstrip s ++ [c] \/ (lstrip (s ++ [c]) = [] /\ lstrip s = []).
Proof.
  intro Hc; induction s as [|x s IH]; simpl; [rewrite Hc; now right|].
  destruct (is_space x); [exact IH | now left].
Qed.

Lemma rstrip_app_space (s : str) (c : Z) :
  is_space c = true -> rstrip (s ++ [c]) = rstrip s.
Proof.
  intro Hc; unfold rstrip. rewrite rev_app_distr; simpl. now rewrite Hc.
Qed.

(** A trailing whitespace character does not change what [strip] returns. *)
Lemma strip_app_space (s : str) (c : Z) :
  is_space c = true -> strip (s ++ [c]) = strip s.
Proof.
  intro Hc; unfold strip.
  destruct (lstrip_app_space s c Hc) as [-> | [-> ->]].
  - now apply rstrip_app_space.
  - reflexivity.
Qed.

Lemma lstrip_spaces (s : str) : forallb is_space s = true -> lstrip s = [].
Proof.
  induction s as [|x s IH]; simpl; [reflexivity|].
  intro H; apply andb_true_iff in H as [-> Hs]; auto.
Qed.

(** A string of whitespace strips to the empty string. *)
Lemma strip_spaces (s : str) : forallb is_space s = true -> strip s = [].
Proof. intro H; unfold strip; now rewrite (lstrip_spaces s H). Qed.

Lemma lstrip_idempotent (s : str) : lstrip (lstrip s) = lstrip s.
Proof.
  induction s as [|x s IH]; simpl; [reflexivity|].
  destruct (is_space x) eqn:E; [exact IH | simpl; now rewrite E].
Qed.

Lemma rstrip_idempotent (s : str) : rstrip (rstrip s) = rstrip s.
Proof. unfold rstrip; now rewrite rev_involutive, lstrip_idempotent. Qed.

Lemma lstrip_head (s : str) :
  lstrip s = [] \/ exists c s', lstrip s = c :: s' /\ is_space c = false.
Proof.
  induction s as [|x s IH]; simpl; [now left|].
  destruct (is_space x) eqn:E; [exact IH | right; eauto].
Qed.

(** What [strip] returns has no whitespace at either end. *)
Lemma strip_stripped (s : str) :
  lstrip (strip s) = strip s /\ rstrip (strip s) = strip s.
Proof.
  unfold strip; split; [|apply rstrip_idempotent].
  destruct (lstrip_head s) as [-> | (c & s' & -> & Hc)]; [reflexivity|].
  unfold rstrip; simpl rev.
  rewrite (lstrip_app_nonspace _ _ Hc), rev_app_distr; simpl.
  now rewrite Hc.
Qed.

(** What [lstrip] and [rstrip] cut off is whitespace. *)
Lemma lstrip_split (s : str) :
  exists a, s = a ++ lstrip s /\ forallb is_space a = true.
Proof.
  induction s as [|x s (a & E & Ha)]; simpl; [exists []; split; reflexivity|].
  destruct (is_space x) eqn:Hx.
  - exists (x :: a); simpl; rewrite Hx, Ha; split; [now f_equal | reflexivity].
  - exists []; split; reflexivity.
Qed.

Lemma rstrip_split (s : str) :
  exists b, s = rstrip s ++ b /\ forallb is_space b = true.
Proof.
  destruct (lstrip_split (rev s)) as (a & E & Ha).
  exists (rev a); split.
  - unfold rstrip. rewrite <- (rev_involutive s) at 1. rewrite E at 1.
    apply rev_app_distr.
  - apply forallb_forall; intros c Hc; apply in_rev in Hc.
    rewrite forallb_forall in Ha; auto.
Qed.

(** What [lstrip] leaves does not start with whitespace. *)
Lemma lstrip_fixed_head (s : str) (c : Z) (s' : str) :
  lstrip s = s -> s = c :: s' -> is_space c = false.
Proof.
  intros H ->.
  destruct (lstrip_head (c :: s')) as [E | (c' & r & E & Hc)]; rewrite H in E;
    [discriminate | injection E as -> _; exact Hc].
Qed.

End PyFacts.

(* ===================================================================== *)
(** * Properties of the receiver's frame reassembly *)
(* ===================================================================== *)

Module FrameCodec.
Import Py Defender.

(** A line body: bytes with no newline among them. *)
Definition newline_free (l : bytes) : Prop := Forall (fun b => b <> NL) l.

(** The byte stream of a sequence of lines, each followed by its newline. *)
Definition encode_lines (ls : list bytes) : bytes :=
  concat (map (fun l => l ++ [NL]) ls).

(** What [recv_lines] yields for the bytes of one line. *)
Definition frame_of (l : bytes) : str := strip (utf8_decode l).

(** The bytes a socket hands over before its first zero-byte read. *)
Fixpoint received (sock : list bytes) : bytes :=
  match sock with
  | [] => []
  | [] :: _ => []
  | chunk :: sock' => chunk ++ received sock'
  end.

#[local] Hint Unfold newline_free : core.

Lemma find_from_newline_free (l : bytes) (i : Z) :
  newline_free l -> find_from l i = -1.
Proof.
  intro H; revert i; induction H as [|b l Hb _ IH]; intro i; simpl; [reflexivity|].
  apply Z.eqb_neq in Hb; rewrite Hb; apply IH.
Qed.

Lemma find_from_first (l r : bytes) (i : Z) :
  newline_free l -> find_from (l ++ NL :: r) i = i + Z.of_nat (length l).
Proof.
  intro H; revert i; induction H as [|b l Hb _ IH]; intro i; simpl.
  - lia.
  - apply Z.eqb_neq in Hb; rewrite Hb, IH; lia.
Qed.

Lemma drain_unfold (buf : bytes) :
  drain buf =
  if find_nl buf =? -1 then ([], buf)
  else
    let nl := find_nl buf in
    let '(ys, buf') := drain (skipn (Z.to_nat (nl + 1)) buf) in
    (strip (utf8_decode (firstn (Z.to_nat nl) buf)) :: ys, buf').
Proof.
  funelim (drain buf).
  - rewrite e; reflexivity.
  - rewrite Hnl; reflexivity.
Qed.

(** No newline in the buffer: nothing is yielded, the buffer is kept. *)
Lemma drain_tail (t : bytes) : newline_free t -> drain t = ([], t).
Proof.
  intro H; rewrite drain_unfold; unfold find_nl.
  rewrite (find_from_newline_free t 0 H); reflexivity.
Qed.

(** A buffer that starts with a complete line: the line is yielded and the
    loop goes on with what follows the newline. *)
Lemma drain_line (l r : bytes) :
  newline_free l ->
  drain (l ++ NL :: r) = (frame_of l :: fst (drain r), snd (drain r)).
Proof.
  intro H; rewrite drain_unfold; unfold find_nl.
  rewrite (find_from_first l r 0 H); cbn zeta.
  replace (0 + Z.of_nat (length l) =? -1) with false by (symmetry; apply Z.eqb_neq; lia).
  replace (Z.to_nat (0 + Z.of_nat (length l) + 1)) with (length l + 1)%nat by lia.
  replace (Z.to_nat (0 + Z.of_nat (length l))) with (length l + 0)%nat by lia.
  rewrite firstn_app_2, skipn_app.
  rewrite skipn_all2 by lia.
  replace (length l + 1 - length l)%nat with 1%nat by lia.
  simpl. rewrite app_nil_r.
  destruct (drain r); reflexivity.
Qed.

Lemma drain_lines (ls : list bytes) (x : bytes) :
  Forall newline_free ls ->
  drain (encode_lines ls ++ x) = (map frame_of ls ++ fst (drain x), snd (drain x)).
Proof.
  induction 1 as [|l ls Hl _ IH]; simpl.
  - destruct (drain x); reflexivity.
  - unfold encode_lines in *; simpl.
    rewrite <- !app_assoc; simpl.
    rewrite (drain_line _ _ Hl), IH; reflexivity.
Qed.

(** Every byte stream is a sequence of complete lines followed by a part
    with no newline. *)
Lemma stream_decomposition (stream : bytes) :
  exists ls t, stream = encode_lines ls ++ t /\ Forall newline_free ls /\ newline_free t.
Proof.
  induction stream as [|b s (ls & t & -> & Hls & Ht)].
  - exists [], []; repeat split; constructor.
  - destruct (Z.eq_dec b NL) as [->|Hb].
    + exists ([] :: ls), t; repeat split; trivial.
      constructor; [constructor | exact Hls].
    + destruct ls as [|l ls].
      * exists [], (b :: t); repeat split; trivial.
        constructor; assumption.
      * exists ((b :: l) :: ls), t; repeat split; trivial.
        inversion Hls; subst; constructor; [constructor|]; assumption.
Qed.

Lemma drain_stream (ls : list bytes) (t : bytes) :
  Forall newline_free ls -> newline_free t ->
  drain (encode_lines ls ++ t) = (map frame_of ls, t).
Proof.
  intros Hls Ht; rewrite (drain_lines ls t Hls), (drain_tail t Ht); simpl.
  now rewrite app_nil_r.
Qed.

Lemma drain_rest_newline_free (buf : bytes) : newline_free (snd (drain buf)).
Proof.
  destruct (stream_decomposition buf) as (ls & t & -> & Hls & Ht).
  now rewrite drain_stream.
Qed.

Lemma drain_app (a b : bytes) :
  drain (a ++ b) =
  (fst (drain a) ++ fst (drain (snd (drain a) ++ b)), snd (drain (snd (drain a) ++ b))).
Proof.
  destruct (stream_decomposition a) as (ls & t & -> & Hls & Ht).
  rewrite (drain_stream ls t Hls Ht); simpl.
  now rewrite <- app_assoc, (drain_lines ls (t ++ b) Hls).
Qed.

(** The generator yields what the inner loop yields on everything that was
    received, taken at once. *)
Lemma recv_loop_received (sock : list bytes) (buf : bytes) :
  newline_free buf -> recv_loop buf sock = fst (drain (buf ++ received sock)).
Proof.
  revert buf; induction sock as [|chunk sock IH]; intros buf Hbuf; simpl.
  - now rewrite app_nil_r, (drain_tail buf Hbuf).
  - destruct chunk as [|c chunk].
    + now rewrite app_nil_r, (drain_tail buf Hbuf).
    + rewrite app_assoc, (drain_app (buf ++ c :: chunk) (received sock)).
      destruct (drain (buf ++ c :: chunk)) as [ys buf'] eqn:E; simpl.
      rewrite (IH buf'); [reflexivity|].
      change buf' with (snd (ys, buf')); rewrite <- E.
      apply drain_rest_newline_free.
Qed.

Lemma recv_lines_received (sock : list bytes) :
  recv_lines sock = fst (drain (received sock)).
Proof. apply (recv_loop_received sock []); constructor. Qed.

Lemma recv_lines_stream (sock : list bytes) (ls : list bytes) (t : bytes) :
  received sock = encode_lines ls ++ t ->
  Forall newline_free ls -> newline_free t ->
  recv_lines sock = map frame_of ls.
Proof.
  intros E Hls Ht. now rewrite recv_lines_received, E, drain_stream.
Qed.

Lemma received_nonempty_chunks (chunks later : list bytes) :
  Forall (fun c => c <> []) chunks ->
  received (chunks ++ [] :: later) = concat chunks /\ received chunks = concat chunks.
Proof.
  induction 1 as [|c chunks Hc _ [IH1 IH2]]; simpl; [split; reflexivity|].
  destruct c as [|b c]; [contradiction|].
  now rewrite IH1, IH2.
Qed.

Lemma received_pair (a b : bytes) : a <> [] -> received [a; b] = a ++ b.
Proof.
  intro Ha; destruct a as [|x a]; [contradiction|].
  destruct b; simpl; now rewrite ?app_nil_r.
Qed.

(** A read of zero bytes ends the generator on the spot: nothing is
    yielded for it, nor for what the script holds after it. *)
Lemma zero_byte_read_ends_generator (later : list bytes) :
  recv_lines ([] :: later) = [].
Proof. reflexivity. Qed.

(** C1.  The bytes of one newline-terminated message, handed over by the
    socket in two reads cut at any offset [k > 0] (a read of zero bytes is
    the peer's close, not a chunk), give exactly one frame, the same frame
    as the message read at once. *)
Theorem partial_frame_two_chunks (body : bytes) (k : nat) :
  newline_free body -> (0 < k)%nat ->
  recv_lines [firstn k (body ++ [NL]); skipn k (body ++ [NL])] = [frame_of body]
  /\ recv_lines [body ++ [NL]] = [frame_of body].
Proof.
  intros Hbody Hk.
  assert (Hone : body ++ [NL] = encode_lines [body] ++ [])
    by (unfold encode_lines; simpl; now rewrite !app_nil_r).
  split.
  - apply (recv_lines_stream _ [body] []); [|repeat constructor; assumption|constructor].
    rewrite received_pair, firstn_skipn; [exact Hone|].
    destruct k as [|k]; [lia|]. destruct body; discriminate.
  - apply (recv_lines_stream _ [body] []); [|repeat constructor; assumption|constructor].
    rewrite <- Hone. destruct body; simpl; now rewrite ?app_nil_r.
Qed.

Lemma partial_frame_two_chunks_witness :
  (newline_free (lit "{}") /\ (0 < 1)%nat)
  /\ recv_lines [firstn 1 (lit "{}" ++ [NL]); skipn 1 (lit "{}" ++ [NL])]
     = [frame_of (lit "{}")]
  /\ recv_lines [lit "{}" ++ [NL]] = [frame_of (lit "{}")].
Proof.
  assert (H : newline_free (lit "{}")) by (repeat constructor; discriminate).
  split; [split; [exact H | lia] | apply (partial_frame_two_chunks (lit "{}") 1 H); lia].
Defined.

(** C8.  Whatever the socket delivers before its zero-byte read, the
    generator yields one frame for each newline-terminated line and
    nothing else: the bytes after the last newline are dropped at the
    close, and no read after the close is made. *)
Theorem leftover_bytes_discarded (chunks later : list bytes)
    (ls : list bytes) (t : bytes) :
  Forall (fun c => c <> []) chunks ->
  concat chunks = encode_lines ls ++ t ->
  Forall newline_free ls -> newline_free t ->
  recv_lines (chunks ++ [] :: later) = map frame_of ls
  /\ recv_lines chunks = map frame_of ls.
Proof.
  intros Hne E Hls Ht.
  destruct (received_nonempty_chunks chunks later Hne) as [E1 E2].
  split; apply (recv_lines_stream _ ls t); congruence.
Qed.

Lemma leftover_bytes_discarded_witness :
  recv_lines ([lit "ab"; NL :: lit "c"] ++ [] :: [lit "zz"; [NL]])
  = map frame_of [lit "ab"]
  /\ recv_lines [lit "ab"; NL :: lit "c"] = map frame_of [lit "ab"].
Proof.
  apply (leftover_bytes_discarded [lit "ab"; NL :: lit "c"] [lit "zz"; [NL]]
           [lit "ab"] (lit "c")).
  - repeat constructor; discriminate.
  - reflexivity.
  - repeat constructor; discriminate.
  - repeat constructor; discriminate.
Defined.

(** However the socket cuts a byte stream into (non-empty) reads, the
    frames yielded are those of the stream read at once. *)
Theorem chunking_is_irrelevant :
  forall chunks, Forall (fun c => c <> []) chunks ->
                 recv_lines chunks = recv_lines [concat chunks].
Proof.
  intros chunks Hne.
  destruct (received_nonempty_chunks chunks [] Hne) as [_ E].
  rewrite !recv_lines_received, E.
  destruct (concat chunks); simpl; now rewrite ?app_nil_r.
Qed.

Lemma chunking_is_irrelevant_witness :
  recv_lines [lit "{"; lit "}" ++ [NL] ++ lit "{"; lit "}"; [NL]]
  = recv_lines [concat [lit "{"; lit "}" ++ [NL] ++ lit "{"; lit "}"; [NL]]].
Proof.
  apply (chunking_is_irrelevant [lit "{"; lit "}" ++ [NL] ++ lit "{"; lit "}"; [NL]]).
  repeat constructor; discriminate.
Defined.

End FrameCodec.

(* ===================================================================== *)
(** * Properties of the receiver's serving loop *)
(* ===================================================================== *)

Module Receiver.
Import Py Defender FrameCodec.

Definition CR : Z := 13.

(** [msg[k]] of a decoded object, [None] where it has no such member. *)
Definition field (msg : value) (k : str) : value :=
  match msg with
  | VDict d => dict_get d k VNone
  | _ => VNone
  end.

(** The acknowledgment of [msg]: [{"type": "ack", "seq": msg.get("seq")}]. *)
Definition ack_for (msg : value) : value :=
  VDict [(lit "type", VStr (lit "ack")); (lit "seq", field msg (lit "seq"))].

(** A member that [build_line] can read: a mapping, or a false value that
    [or {}] replaces by the empty mapping. *)
Definition mapping_or_empty (v : value) : bool :=
  match v with
  | VDict _ => true
  | _ => negb (truthy v)
  end.

(** A message of the data model: a JSON object whose [axes] and [dpad],
    where it has them, are mappings (or null). *)
Definition well_formed (msg : value) : bool :=
  match msg with
  | VDict d =>
    mapping_or_empty (dict_get d (lit "axes") (VDict []))
    && mapping_or_empty (dict_get d (lit "dpad") (VDict []))
  | _ => false
  end.

(** The entries of [v or {}] for a member [v] that [build_line] can read. *)
Definition entries (v : value) : list (str * value) :=
  match py_or v (VDict []) with
  | VDict e => e
  | _ => []
  end.

(** The notice printed for a heartbeat, with [--show-heartbeats]. *)
Definition heartbeat_text (d : list (str * value)) : text :=
  [ Chars (lit "[heartbeat] seq="); StrOf (dict_get d (lit "seq") (VStr []));
    Chars (lit " ts="); StrOf (dict_get d (lit "ts") (VStr [])) ].

(** [f] is [s] with its leading and its trailing whitespace removed, and
    nothing else: [s] is [f] between two runs of whitespace, and [f]
    neither starts nor ends with a whitespace character. *)
Definition trimmed (s f : str) : Prop :=
  exists a b,
    s = a ++ f ++ b
    /\ forallb is_space a = true /\ forallb is_space b = true
    /\ (forall c f', f = c :: f' -> is_space c = false)
    /\ (forall f' c, f = f' ++ [c] -> is_space c = false).


Section Serving.

Variable json_loads : str -> result value.
Variable float_of_str : str -> option float.

#[local] Abbreviation build_line := (Defender.build_line float_of_str).
#[local] Abbreviation dispatch := (Defender.dispatch float_of_str).
#[local] Abbreviation handle_line := (Defender.handle_line json_loads float_of_str).
#[local] Abbreviation handle_lines := (Defender.handle_lines json_loads float_of_str).
#[local] Abbreviation handle_client := (Defender.handle_client json_loads float_of_str).

(** The line printed for a well-formed input message. *)
Definition line_text (d : list (str * value)) : text :=
  let axes := entries (dict_get d (lit "axes") (VDict [])) in
  let dpad := entries (dict_get d (lit "dpad") (VDict [])) in
  let axis k := Chars (fmt_float float_of_str (dict_get axes (lit k) VNone) 3) in
  [ Chars (lit "["); StrOf (dict_get d (lit "type") (VStr (lit "?")));
    Chars (lit "] seq="); StrOf (dict_get d (lit "seq") (VStr []));
    Chars (lit " ts="); StrOf (dict_get d (lit "ts") (VStr [])); Chars (lit "  ");
    Chars (lit "axes(lx="); axis "lx"%string;
    Chars (lit " ly="); axis "ly"%string;
    Chars (lit "  rx="); axis "rx"%string;
    Chars (lit " ry="); axis "ry"%string;
    Chars (lit "  lt="); axis "lt"%string;
    Chars (lit " rt="); axis "rt"%string; Chars (lit ")  ");
    Chars (lit "dpad(x="); StrOf (dict_get dpad (lit "x") (VInt 0));
    Chars (lit " y="); StrOf (dict_get dpad (lit "y") (VInt 0));
    Chars (lit ")  ");
    Chars (lit "pressed=[");
    Chars (pressed_buttons (dict_get d (lit "buttons") (VDict [])));
    Chars (lit "]") ].

(** A message whose line [print] accepts: the strs that the line of an
    input shows (type, seq, ts, the dpad members and the names of the
    buttons held), or the notice of a heartbeat with [--show-heartbeats],
    hold no lone surrogate. *)
Definition displayable (show_heartbeats : bool) (msg : value) : bool :=
  match msg with
  | VDict d =>
    if eq_str (dict_get d (lit "type") VNone) (lit "input")
    then negb (unencodable (line_text d))
    else if eq_str (dict_get d (lit "type") VNone) (lit "heartbeat")
    then negb (show_heartbeats && unencodable (heartbeat_text d))
    else true
  | _ => true
  end.

(** The handling of the decoded messages [lms] (each with the line it came
    from), one after the other. *)
Fixpoint deliver (show_heartbeats send_ack : bool) (tx : list bool)
    (lms : list (str * value)) : list event :=
  match lms with
  | [] => []
  | (line, msg) :: lms' =>
    let '(evs, tx', _) := dispatch show_heartbeats send_ack tx line msg in
    evs ++ deliver show_heartbeats send_ack tx' lms'
  end.

Lemma py_or_mapping (v : value) :
  mapping_or_empty v = true -> py_or v (VDict []) = VDict (entries v).
Proof.
  unfold entries, py_or, mapping_or_empty; intro H.
  destruct v; destruct (truthy _); try reflexivity; discriminate H.
Qed.

Lemma build_line_well_formed (d : list (str * value)) :
  well_formed (VDict d) = true -> build_line (VDict d) = Ok (line_text d).
Proof.
  simpl; intro H; apply andb_true_iff in H as [Ha Hd].
  unfold Defender.build_line, line_text; simpl.
  rewrite (py_or_mapping _ Ha), (py_or_mapping _ Hd); reflexivity.
Qed.


Lemma send_ack_for_events (tx : list bool) (d : list (str * value)) :
  forall o, In (Sendall o) (fst (send_ack_for tx (VDict d)))
            <-> (hd true tx = true /\ o = ack_for (VDict d)).
Proof.
  intro o; unfold send_ack_for, ack_for; simpl.
  destruct tx as [|[|] tx]; simpl; split.
  - intros [H|[]]; injection H as <-; split; reflexivity.
  - intros [_ ->]; now left.
  - intros [H|[]]; injection H as <-; split; reflexivity.
  - intros [_ ->]; now left.
  - intros [H|[H|[]]]; discriminate.
  - intros [H _]; discriminate.
Qed.


(** The line of a well-formed, displayable input is printed. *)
Lemma print_line_text (show_heartbeats : bool) (d : list (str * value)) :
  well_formed (VDict d) = true ->
  eq_str (dict_get d (lit "type") VNone) (lit "input") = true ->
  displayable show_heartbeats (VDict d) = true ->
  (do t <- build_line (VDict d); print t) = Ok (Stdout (line_text d)).
Proof.
  intros Hwf Hi Hd.
  rewrite (build_line_well_formed d Hwf); cbn [bind]; unfold print.
  cbn [displayable] in Hd; rewrite Hi in Hd.
  apply negb_true_iff in Hd; now rewrite Hd.
Qed.

Lemma dispatch_well_formed (show_heartbeats send_ack : bool) (tx : list bool)
    (line : str) (msg : value) :
  well_formed msg = true -> displayable show_heartbeats msg = true ->
  snd (dispatch show_heartbeats send_ack tx line msg) = None.
Proof.
  destruct msg; try discriminate; intros H Hd.
  unfold Defender.dispatch; cbn [get].
  destruct (eq_str _ (lit "input")) eqn:Hi.
  - rewrite (print_line_text show_heartbeats d H Hi Hd).
    destruct send_ack; [destruct (send_ack_for _ _)|]; reflexivity.
  - destruct (eq_str _ (lit "heartbeat")) eqn:Hh; [|reflexivity].
    destruct show_heartbeats; [|reflexivity].
    cbn [bind]; unfold print.
    cbn [displayable] in Hd; rewrite Hi, Hh in Hd; cbn [andb] in Hd.
    apply negb_true_iff in Hd; unfold heartbeat_text in Hd; now rewrite Hd.
Qed.



(** A line that decodes is handed to the dispatch. *)
Lemma handle_line_decoded (peer : text) (show_heartbeats send_ack : bool)
    (tx : list bool) (line : str) (msg : value) :
  line <> [] -> json_loads line = Ok msg ->
  handle_line peer show_heartbeats send_ack tx line
  = dispatch show_heartbeats send_ack tx line msg.
Proof.
  intros Hne Hl; unfold Defender.handle_line.
  destruct line; [contradiction|]; now rewrite Hl.
Qed.


(** Any other exception of [json.loads] leaves the loop, with no warning. *)
Lemma handle_line_raises (peer : text) (show_heartbeats send_ack : bool)
    (tx : list bool) (line : str) (e : exn) :
  line <> [] -> json_loads line = Raise e -> e <> JSONDecodeError ->
  handle_line peer show_heartbeats send_ack tx line = ([], tx, Some e).
Proof.
  intros Hne Hl He; unfold Defender.handle_line.
  destruct line; [contradiction|]; rewrite Hl.
  destruct e; try reflexivity; contradiction.
Qed.

(** An empty line is skipped. *)
Lemma handle_line_blank (peer : text) (show_heartbeats send_ack : bool)
    (tx : list bool) :
  handle_line peer show_heartbeats send_ack tx [] = ([], tx, None).
Proof. reflexivity. Qed.

(** The lines of well-formed messages are all handled, in order. *)
Lemma handle_lines_valid (peer : text) (show_heartbeats send_ack : bool)
    (valids : list bytes) (msgs : list value) :
  Forall2 (fun l m => frame_of l <> [] /\ json_loads (frame_of l) = Ok m
                      /\ well_formed m = true
                      /\ displayable show_heartbeats m = true) valids msgs ->
  forall tx,
    handle_lines peer show_heartbeats send_ack tx (map frame_of valids)
    = (deliver show_heartbeats send_ack tx (combine (map frame_of valids) msgs), None).
Proof.
  induction 1 as [|l m valids msgs (Hne & Hl & Hwf & Hdis) _ IH]; intro tx; simpl;
    [reflexivity|].
  rewrite (handle_line_decoded _ _ _ _ _ _ Hne Hl).
  pose proof (dispatch_well_formed show_heartbeats send_ack tx (frame_of l) m Hwf Hdis)
    as Hd.
  destruct (dispatch _ _ tx (frame_of l) m) as [[evs tx'] e]; simpl in Hd; subst e.
  now rewrite IH.
Qed.

(** ** Malformed input *)


(** ** Acknowledgments *)

(** C7, as amended.  With acknowledgments enabled, whatever the decoded
    message, nothing but the ack of an input message, carrying its [seq],
    is ever written to the connection, so a heartbeat or a message of
    unknown type never triggers an ack; and an input message that is well
    formed and displayable is answered by its ack, which is written when
    [sendall] returns. *)
Theorem ack_iff_input (show_heartbeats : bool) (tx : list bool)
    (line : str) (msg : value) :
  (forall o,
      In (Sendall o) (fst (fst (dispatch show_heartbeats true tx line msg)))
      \/ In (SendallRaised o) (fst (fst (dispatch show_heartbeats true tx line msg))) ->
      eq_str (field msg (lit "type")) (lit "input") = true /\ o = ack_for msg)
  /\ (forall d,
        msg = VDict d ->
        eq_str (field msg (lit "type")) (lit "input") = true ->
        well_formed msg = true -> displayable show_heartbeats msg = true ->
        dispatch show_heartbeats true tx line msg
        = (if hd true tx
           then [Stdout (line_text d); Sendall (ack_for msg)]
           else [Stdout (line_text d); SendallRaised (ack_for msg);
                 Stdout [Chars (lit "(warn) failed to send ack: "); ExcOf OSError]],
           tl tx, None)).
Proof using float_of_str.
  split.
  - intro o; unfold Defender.dispatch.
    destruct msg as [| | | | | |d]; try (intros [[]|[]]); cbn [get field].
    destruct (eq_str (dict_get d (lit "type") VNone) (lit "input")).
    + destruct (do t <- build_line (VDict d); print t) as [ev|] eqn:E;
        [|intros [[]|[]]].
      assert (Hev : exists t, ev = Stdout t).
      { destruct (build_line (VDict d)) as [t|]; cbn [bind] in E; [|discriminate].
        unfold print in E; destruct (unencodable t); [discriminate|].
        injection E as <-; eauto. }
      destruct Hev as [t ->].
      unfold send_ack_for, ack_for; cbn [get field].
      destruct tx as [|[|] tx]; cbn [fst In]; intro H;
        repeat match goal with
               | H : _ \/ _ |- _ => destruct H as [H|H]
               end;
        try discriminate H; try contradiction;
        injection H as <-; split; reflexivity.
    + destruct (eq_str _ (lit "heartbeat")); [destruct show_heartbeats|]; cbn [bind].
      * unfold print; destruct (unencodable _); cbn [fst In]; intro H;
          repeat match goal with
                 | H : _ \/ _ |- _ => destruct H as [H|H]
                 end;
          try discriminate H; contradiction.
      * intros [[]|[]].
      * cbn [fst In]; intro H;
          repeat match goal with
                 | H : _ \/ _ |- _ => destruct H as [H|H]
                 end;
          try discriminate H; contradiction.
  - intros d -> Hi Hwf Hd; cbn [field] in Hi.
    unfold Defender.dispatch; cbn [get]; rewrite Hi.
    rewrite (print_line_text show_heartbeats d Hwf Hi Hd).
    unfold send_ack_for, ack_for; cbn [get field].
    destruct tx as [|[|] tx]; reflexivity.
Qed.

(** ** Whitespace around a line *)

Lemma frame_of_crlf (l : bytes) : frame_of (l ++ [CR]) = frame_of l.
Proof.
  unfold frame_of.
  rewrite PyFacts.utf8_decode_ascii_last by reflexivity.
  now apply PyFacts.strip_app_space.
Qed.

(** Lines that differ by a CR before the newline at most. *)
Definition same_up_to_cr (l_cr l : bytes) : Prop := l_cr = l \/ l_cr = l ++ [CR].

Lemma frames_up_to_cr (ls_cr ls : list bytes) :
  Forall2 same_up_to_cr ls_cr ls ->
  Forall newline_free ls ->
  map frame_of ls_cr = map frame_of ls /\ Forall newline_free ls_cr.
Proof.
  induction 1 as [|l_cr l ls_cr ls [->| ->] _ IH]; intro Hls;
    [split; constructor| |]; inversion Hls as [|? ? Hl Hls']; subst;
    destruct (IH Hls') as [IH1 IH2]; simpl; rewrite IH1.
  - split; [reflexivity | now constructor].
  - rewrite frame_of_crlf; split; [reflexivity|].
    constructor; [|exact IH2].
    apply Forall_app; split; [exact Hl | repeat constructor; discriminate].
Qed.

(** What [strip] returns is the string trimmed. *)
Lemma strip_trimmed (s : str) : trimmed s (strip s).
Proof.
  destruct (PyFacts.lstrip_split s) as (a & Ea & Ha).
  destruct (PyFacts.rstrip_split (lstrip s)) as (b & Eb & Hb).
  destruct (PyFacts.strip_stripped s) as [H1 H2].
  exists a, b; unfold strip in *; repeat split; try assumption.
  - rewrite <- Eb; exact Ea.
  - intros c f' E; exact (PyFacts.lstrip_fixed_head _ c f' H1 E).
  - intros f' c E.
    apply (PyFacts.lstrip_fixed_head (rev (rstrip (lstrip s))) c (rev f')).
    + unfold rstrip in H2 at 1.
      rewrite <- H2 at 2; now rewrite rev_involutive.
    + rewrite E, rev_app_distr; reflexivity.
Qed.

Lemma trimmed_empty (s : str) : trimmed s [] -> forallb is_space s = true.
Proof.
  intros (a & b & -> & Ha & Hb & _); cbn [app].
  rewrite forallb_app, Ha, Hb; reflexivity.
Qed.

(** C10.  The frames that [recv_lines] yields are the decoded lines of
    the stream, each with its leading and trailing whitespace removed and
    nothing else; a stream in which lines end in CR LF is handled exactly
    as the stream of the same lines ending in LF; and a line is skipped,
    with no event at all, exactly when its decoded text is whitespace
    only. *)
Theorem stripped_frames :
  (forall sock,
      exists ls t,
        received sock = encode_lines ls ++ t
        /\ Forall newline_free ls /\ newline_free t
        /\ Forall2 (fun l f => trimmed (utf8_decode l) f) ls (recv_lines sock))
  /\ (forall sock_crlf sock_lf ls_cr ls t t' tx addr show_heartbeats send_ack,
        received sock_crlf = encode_lines ls_cr ++ t ->
        received sock_lf = encode_lines ls ++ t' ->
        Forall2 same_up_to_cr ls_cr ls ->
        Forall newline_free ls -> newline_free t -> newline_free t' ->
        handle_client {| rx := sock_crlf; tx_ok := tx |} addr show_heartbeats send_ack
        = handle_client {| rx := sock_lf; tx_ok := tx |} addr show_heartbeats send_ack)
  /\ (forall peer show_heartbeats send_ack tx l,
        (strip (utf8_decode l) = [] <-> forallb is_space (utf8_decode l) = true)
        /\ (forallb is_space (utf8_decode l) = true ->
            handle_line peer show_heartbeats send_ack tx (strip (utf8_decode l))
            = ([], tx, None))).
Proof.
  split; [|split].
  - intro sock.
    destruct (stream_decomposition (received sock)) as (ls & t & E & Hls & Ht).
    exists ls, t; repeat split; try assumption.
    rewrite (recv_lines_stream sock ls t E Hls Ht).
    clear E Hls; induction ls as [|l ls IH]; simpl; constructor; [|exact IH].
    apply strip_trimmed.
  - intros sock_crlf sock_lf ls_cr ls t t' tx addr show_heartbeats send_ack
           E1 E2 Hcr Hls Ht Ht'.
    destruct (frames_up_to_cr ls_cr ls Hcr Hls) as [Hf Hls_cr].
    unfold Defender.handle_client; cbn [rx tx_ok].
    rewrite (recv_lines_stream _ _ _ E2 Hls Ht').
    rewrite (recv_lines_stream _ _ _ E1 Hls_cr Ht).
    now rewrite Hf.
  - intros peer show_heartbeats send_ack tx l; split; [split|].
    + intro E. pose proof (strip_trimmed (utf8_decode l)) as Ht.
      rewrite E in Ht; now apply trimmed_empty.
    + apply PyFacts.strip_spaces.
    + intro Hl; now rewrite (PyFacts.strip_spaces _ Hl).
Qed.

(** ** Idle links *)


(** C6 as the design document states it, for a timeout of [timeout_ms]: a
    read that stays blocked longer ends the connection, as a close by the
    peer does, so that nothing sent from then on is served. *)
Definition closes_stale_link (timeout_ms : Z) : Prop :=
  forall before late after tx addr show_heartbeats send_ack,
    timeout_ms < waited_ms late ->
    handle_client_timed json_loads float_of_str (before ++ late :: after) tx addr
      show_heartbeats send_ack
    = handle_client_timed json_loads float_of_str before tx addr
        show_heartbeats send_ack.



End Serving.

(** ** Runs on concrete input *)

(** A decoder for the runs below: it agrees with [json.loads] on the lines
    they contain ([{}] is the empty object; [oops], the empty line and a
    line of spaces are not JSON). *)
Definition example_loads (s : str) : result value :=
  if str_eqb s (lit "{}") then Ok (VDict []) else Raise JSONDecodeError.

(** No run below converts a str to a float. *)
Definition no_float (s : str) : option float := None.

(** The input message of the design document's example:
    seq 7, lx 0.5, ly -0.2, rt 1.0, button a pressed, dpad (0, -1). *)
Definition example_input : value :=
  VDict [ (lit "type", VStr (lit "input"));
          (lit "seq", VInt 7);
          (lit "ts", VStr (lit "2024-01-01T00:00:00Z"));
          (lit "axes", VDict [ (lit "lx", VFloat (fdiv (float_of_Z 1) (float_of_Z 2)));
                               (lit "ly", VFloat (fdiv (float_of_Z (-1)) (float_of_Z 5)));
                               (lit "rx", VInt 0); (lit "ry", VInt 0);
                               (lit "lt", VInt 0);
                               (lit "rt", VFloat (float_of_Z 1)) ]);
          (lit "buttons", VDict [(lit "a", VInt 1); (lit "b", VInt 0)]);
          (lit "dpad", VDict [(lit "x", VInt 0); (lit "y", VInt (-1))]);
          (lit "meta", VDict []) ].

(** An input message whose [ts] is a lone surrogate:
    [{"type": "input", "seq": 7, "ts": "\ud800"}]. *)
Definition surrogate_ts_input : value :=
  VDict [ (lit "type", VStr (lit "input"));
          (lit "seq", VInt 7);
          (lit "ts", VStr [0xD800]) ].

(** An input message whose [axes] member is a JSON array:
    [{"type": "input", "seq": 7, "axes": [0.5]}]. *)
Definition list_axes_input : value :=
  VDict [ (lit "type", VStr (lit "input"));
          (lit "seq", VInt 7);
          (lit "axes", VList [VFloat (fdiv (float_of_Z 1) (float_of_Z 2))]) ].



Lemma ack_iff_input_witness :
  dispatch no_float false true [] (lit "{...}") example_input
  = ([Stdout (line_text no_float
                [ (lit "type", VStr (lit "input"));
                  (lit "seq", VInt 7);
                  (lit "ts", VStr (lit "2024-01-01T00:00:00Z"));
                  (lit "axes",
                   VDict [ (lit "lx", VFloat (fdiv (float_of_Z 1) (float_of_Z 2)));
                           (lit "ly", VFloat (fdiv (float_of_Z (-1)) (float_of_Z 5)));
                           (lit "rx", VInt 0); (lit "ry", VInt 0);
                           (lit "lt", VInt 0);
                           (lit "rt", VFloat (float_of_Z 1)) ]);
                  (lit "buttons", VDict [(lit "a", VInt 1); (lit "b", VInt 0)]);
                  (lit "dpad", VDict [(lit "x", VInt 0); (lit "y", VInt (-1))]);
                  (lit "meta", VDict []) ]);
      Sendall (ack_for example_input)],
     [], None).
Proof.
  apply (proj2 (ack_iff_input no_float false [] (lit "{...}") example_input));
    reflexivity.
Defined.

(** C7 as stated fails: three input messages that are decoded and get no
    ack.  For an [axes] that is an array [build_line] raises; for a [ts]
    that is a lone surrogate [print] raises; both exceptions leave the
    loop before the ack branch.  And when [sendall] raises, the ack is not
    written: the handler prints a warning and goes on. *)
Lemma input_without_ack :
  eq_str (field list_axes_input (lit "type")) (lit "input") = true
  /\ dispatch no_float false true [] (lit "{...}") list_axes_input
     = ([], [], Some AttributeError)
  /\ eq_str (field surrogate_ts_input (lit "type")) (lit "input") = true
  /\ dispatch no_float false true [] (lit "{...}") surrogate_ts_input
     = ([], [], Some UnicodeEncodeError)
  /\ eq_str (field example_input (lit "type")) (lit "input") = true
  /\ (forall o,
         ~ In (Sendall o)
              (fst (fst (dispatch no_float false true [false] (lit "{...}")
                           example_input))))
  /\ In (SendallRaised (ack_for example_input))
        (fst (fst (dispatch no_float false true [false] (lit "{...}") example_input))).
Proof.
  repeat split.
  - intros o [H|[H|[H|[]]]]; discriminate H.
  - right; left; reflexivity.
Qed.

Lemma stripped_frames_witness :
  handle_client example_loads no_float
    {| rx := [lit "{}" ++ [CR; NL] ++ lit "{}" ++ [NL]]; tx_ok := [] |}
    (lit "192.168.50.10", 50000) false true
  = handle_client example_loads no_float
      {| rx := [lit "{}" ++ [NL] ++ lit "{}" ++ [NL]]; tx_ok := [] |}
      (lit "192.168.50.10", 50000) false true.
Proof.
  refine (proj1 (proj2 (stripped_frames example_loads no_float))
            [lit "{}" ++ [CR; NL] ++ lit "{}" ++ [NL]]
            [lit "{}" ++ [NL] ++ lit "{}" ++ [NL]]
            [lit "{}" ++ [CR]; lit "{}"] [lit "{}"; lit "{}"] [] []
            [] (lit "192.168.50.10", 50000) false true _ _ _ _ _ _).
  - reflexivity.
  - reflexivity.
  - constructor; [now right | constructor; [now left | constructor]].
  - repeat constructor; discriminate.
  - constructor.
  - constructor.
Defined.

(** C6.  The receiver never treats a silent link as stale.  On a
    connection where a frame arrives, then nothing for 10^9 ms, then
    another frame, both frames are served, and the connection is closed
    only after the reads are over; and no timeout, however long, makes the
    handler end a connection that is only silent.  The module's docstring
    asks for timeout detection; the accepted socket has no timeout set and
    [handle_client] reads no clock. *)
Theorem silent_link_stays_open :
  handle_client_timed example_loads no_float
    [ {| waited_ms := 20; data := lit "{}" ++ [NL] |};
      {| waited_ms := 1000000000; data := lit "{}" ++ [NL] |} ] []
    (lit "192.168.50.10", 50000) false true
  = ([ Stdout ([Chars (lit "Client connected: ")] ++ peer_of (lit "192.168.50.10", 50000));
       Stdout [Chars (lit "[unknown] "); Chars (lit "{}")];
       Stdout [Chars (lit "[unknown] "); Chars (lit "{}")];
       ConnClose;
       Stdout ([Chars (lit "Client disconnected: ")] ++ peer_of (lit "192.168.50.10", 50000)) ],
     None)
  /\ ~ (exists timeout_ms, closes_stale_link example_loads no_float timeout_ms).
Proof.
  split; [reflexivity|].
  intros [timeout_ms H].
  specialize (H [] {| waited_ms := Z.max timeout_ms 0 + 1; data := lit "{}" ++ [NL] |} []
                [] (lit "192.168.50.10", 50000) false true).
  cbn [waited_ms] in H.
  assert (Hlt : timeout_ms < Z.max timeout_ms 0 + 1) by lia.
  specialize (H Hlt); discriminate H.
Qed.

(** C9 fails on [list_axes_input]: [build_line] raises [AttributeError],
    the dispatch prints nothing and sends no ack, and the exception leaves
    [handle_client] (which catches [JSONDecodeError] only), so the
    connection is closed.  [pressed_buttons] guards the same case. *)
Theorem build_line_aborts_on_list_axes :
  (forall float_of_str, Defender.build_line float_of_str list_axes_input = Raise AttributeError)
  /\ (forall float_of_str show_heartbeats send_ack tx line,
        dispatch float_of_str show_heartbeats send_ack tx line list_axes_input
        = ([], tx, Some AttributeError))
  /\ (forall json_loads float_of_str line later addr show_heartbeats send_ack tx,
        json_loads (frame_of line) = Ok list_axes_input ->
        frame_of line <> [] -> newline_free line ->
        handle_client json_loads float_of_str
          {| rx := (line ++ [NL]) :: later; tx_ok := tx |} addr show_heartbeats send_ack
        = ([ Stdout ([Chars (lit "Client connected: ")] ++ peer_of addr); ConnClose ],
           Some AttributeError))
  /\ pressed_buttons (VList [VInt 1]) = lit "-".
Proof.
  repeat split.
  intros json_loads float_of_str line later addr show_heartbeats send_ack tx Hl Hne Hnf.
  unfold handle_client, recv_lines; cbn [rx tx_ok recv_loop app].
  destruct (line ++ [NL]) as [|b bs] eqn:E; [destruct line; discriminate|].
  rewrite <- E. change (line ++ [NL]) with (line ++ NL :: []).
  rewrite (drain_line line [] Hnf), (drain_tail [] (Forall_nil _)); cbn [fst snd app].
  destruct (recv_loop [] later) as [|l ls]; cbn [handle_lines];
    rewrite (handle_line_decoded json_loads float_of_str _ _ _ _ _ _ Hne Hl);
    reflexivity.
Qed.

(** What [build_line] and [fmt_float] do for members that are missing or
    not numbers: a value that [float()] refuses is rendered "na"; a
    message whose [axes] and [dpad] are absent, false or mappings always
    gives its line; and with every optional member missing all six axes
    are "na", the dpad is (0, 0) and no button is pressed. *)
Theorem defensive_field_extraction :
  (forall float_of_str val places e,
      py_float float_of_str val = Raise e ->
      fmt_float float_of_str val places = lit "na")
  /\ (forall float_of_str d,
        well_formed (VDict d) = true ->
        Defender.build_line float_of_str (VDict d) = Ok (line_text float_of_str d))
  /\ (forall float_of_str,
        Defender.build_line float_of_str (VDict [(lit "type", VStr (lit "input"))])
        = Ok [ Chars (lit "["); StrOf (VStr (lit "input"));
               Chars (lit "] seq="); StrOf (VStr []);
               Chars (lit " ts="); StrOf (VStr []); Chars (lit "  ");
               Chars (lit "axes(lx="); Chars (lit "na");
               Chars (lit " ly="); Chars (lit "na");
               Chars (lit "  rx="); Chars (lit "na");
               Chars (lit " ry="); Chars (lit "na");
               Chars (lit "  lt="); Chars (lit "na");
               Chars (lit " rt="); Chars (lit "na"); Chars (lit ")  ");
               Chars (lit "dpad(x="); StrOf (VInt 0);
               Chars (lit " y="); StrOf (VInt 0); Chars (lit ")  ");
               Chars (lit "pressed=["); Chars (lit "-"); Chars (lit "]") ]).
Proof.
  split; [|split].
  - intros float_of_str val places e H; unfold fmt_float; now rewrite H.
  - intros; now apply build_line_well_formed.
  - reflexivity.
Qed.

(** The example of the design document: lx is rendered 0.500, the pressed
    buttons are [a], the dpad is (0, -1). *)
Theorem design_example_line :
  forall float_of_str,
    Defender.build_line float_of_str example_input
    = Ok [ Chars (lit "["); StrOf (VStr (lit "input"));
           Chars (lit "] seq="); StrOf (VInt 7);
           Chars (lit " ts="); StrOf (VStr (lit "2024-01-01T00:00:00Z"));
           Chars (lit "  ");
           Chars (lit "axes(lx="); Chars (lit "0.500");
           Chars (lit " ly="); Chars (lit "-0.200");
           Chars (lit "  rx="); Chars (lit "0.000");
           Chars (lit " ry="); Chars (lit "0.000");
           Chars (lit "  lt="); Chars (lit "0.000");
           Chars (lit " rt="); Chars (lit "1.000"); Chars (lit ")  ");
           Chars (lit "dpad(x="); StrOf (VInt 0);
           Chars (lit " y="); StrOf (VInt (-1)); Chars (lit ")  ");
           Chars (lit "pressed=["); Chars (lit "a"); Chars (lit "]") ].
Proof. intro; vm_compute; reflexivity. Qed.

(** A decoded object whose type is neither "input" nor "heartbeat" (or
    that has none) is printed as unknown, and the loop goes on. *)
Theorem unknown_type_is_surfaced :
  forall float_of_str show_heartbeats send_ack tx line d,
    eq_str (dict_get d (lit "type") VNone) (lit "input") = false ->
    eq_str (dict_get d (lit "type") VNone) (lit "heartbeat") = false ->
    dispatch float_of_str show_heartbeats send_ack tx line (VDict d)
    = ([Stdout [Chars (lit "[unknown] "); Chars line]], tx, None).
Proof.
  intros float_of_str show_heartbeats send_ack tx line d Hi Hh.
  unfold dispatch; cbn [get]; now rewrite Hi, Hh.
Qed.

Lemma unknown_type_is_surfaced_witness :
  dispatch no_float false true [] (lit "{}") (VDict [])
  = ([Stdout [Chars (lit "[unknown] "); Chars (lit "{}")]], [], None).
Proof.
  apply (unknown_type_is_surfaced no_float false true [] (lit "{}") []); reflexivity.
Defined.

(** A line that holds a JSON value other than an object (a number, a
    string, an array, null) decodes, and then [msg.get] raises: the
    exception leaves the serving loop and the connection is closed. *)
Theorem non_object_line_ends_the_connection :
  forall json_loads float_of_str line later addr show_heartbeats send_ack tx msg,
    json_loads (frame_of line) = Ok msg ->
    (forall d, msg <> VDict d) ->
    frame_of line <> [] -> newline_free line ->
    handle_client json_loads float_of_str
      {| rx := (line ++ [NL]) :: later; tx_ok := tx |} addr show_heartbeats send_ack
    = ([ Stdout ([Chars (lit "Client connected: ")] ++ peer_of addr); ConnClose ],
       Some AttributeError).
Proof.
  intros json_loads float_of_str line later addr show_heartbeats send_ack tx msg
         Hl Hmsg Hne Hnf.
  unfold handle_client, recv_lines; cbn [rx tx_ok recv_loop app].
  destruct (line ++ [NL]) as [|b bs] eqn:E; [destruct line; discriminate|].
  rewrite <- E. change (line ++ [NL]) with (line ++ NL :: []).
  rewrite (drain_line line [] Hnf), (drain_tail [] (Forall_nil _)); cbn [fst snd app].
  assert (Hd : dispatch float_of_str show_heartbeats send_ack tx (frame_of line) msg
               = ([], tx, Some AttributeError)).
  { unfold dispatch. destruct msg; try reflexivity. now destruct (Hmsg d). }
  destruct (recv_loop [] later) as [|l ls]; cbn [handle_lines];
    rewrite (handle_line_decoded json_loads float_of_str _ _ _ _ _ _ Hne Hl), Hd;
    reflexivity.
Qed.

Lemma non_object_line_ends_the_connection_witness :
  handle_client (fun s => if str_eqb s (lit "[]") then Ok (VList [])
                          else Raise JSONDecodeError) no_float
    {| rx := [lit "[]" ++ [NL]; lit "{}" ++ [NL]]; tx_ok := [] |}
    (lit "192.168.50.10", 50000) false true
  = ([ Stdout ([Chars (lit "Client connected: ")] ++ peer_of (lit "192.168.50.10", 50000));
       ConnClose ],
     Some AttributeError).
Proof.
  apply (non_object_line_ends_the_connection
           (fun s => if str_eqb s (lit "[]") then Ok (VList [])
                     else Raise JSONDecodeError) no_float
           (lit "[]") [lit "{}" ++ [NL]] (lit "192.168.50.10", 50000) false true []
           (VList [])).
  - reflexivity.
  - discriminate.
  - discriminate.
  - repeat constructor; discriminate.
Defined.

(** [except json.JSONDecodeError] catches that exception only.  A line on
    which [json.loads] raises another one ([RecursionError] for a line of
    a thousand brackets, [ValueError] for an integer of thousands of
    digits) gets no warning: the exception leaves the serving loop and the
    connection is closed, whatever follows on it. *)
Theorem other_decode_error_ends_the_connection :
  forall json_loads float_of_str line later addr show_heartbeats send_ack tx e,
    json_loads (frame_of line) = Raise e ->
    e <> JSONDecodeError ->
    frame_of line <> [] -> newline_free line ->
    handle_client json_loads float_of_str
      {| rx := (line ++ [NL]) :: later; tx_ok := tx |} addr show_heartbeats send_ack
    = ([ Stdout ([Chars (lit "Client connected: ")] ++ peer_of addr); ConnClose ],
       Some e).
Proof.
  intros json_loads float_of_str line later addr show_heartbeats send_ack tx e
         Hl He Hne Hnf.
  unfold handle_client, recv_lines; cbn [rx tx_ok recv_loop app].
  destruct (line ++ [NL]) as [|b bs] eqn:E; [destruct line; discriminate|].
  rewrite <- E. change (line ++ [NL]) with (line ++ NL :: []).
  rewrite (drain_line line [] Hnf), (drain_tail [] (Forall_nil _)); cbn [fst snd app].
  destruct (recv_loop [] later) as [|l ls]; cbn [handle_lines];
    rewrite (handle_line_raises json_loads float_of_str _ _ _ _ _ _ Hne Hl He);
    reflexivity.
Qed.

Lemma other_decode_error_ends_the_connection_witness :
  handle_client (fun s => if str_eqb s (lit "[[") then Raise RecursionError
                          else example_loads s) no_float
    {| rx := [lit "[[" ++ [NL]; lit "{}" ++ [NL]]; tx_ok := [] |}
    (lit "192.168.50.10", 50000) false true
  = ([ Stdout ([Chars (lit "Client connected: ")] ++ peer_of (lit "192.168.50.10", 50000));
       ConnClose ],
     Some RecursionError).
Proof.
  apply (other_decode_error_ends_the_connection
           (fun s => if str_eqb s (lit "[[") then Raise RecursionError
                     else example_loads s) no_float
           (lit "[[") [lit "{}" ++ [NL]] (lit "192.168.50.10", 50000) false true []
           RecursionError).
  - reflexivity.
  - discriminate.
  - discriminate.
  - repeat constructor; discriminate.
Defined.



End Receiver.

(* ===================================================================== *)
(** * Properties of the sender's loop *)
(* ===================================================================== *)

Module Sender.
Import Py Sfinx.

Lemma attempts_app (a b : list event) : attempts (a ++ b) = attempts a ++ attempts b.
Proof.
  induction a as [|[o|o|t] a IH]; simpl; rewrite ?IH; reflexivity.
Qed.

Lemma sent_app (a b : list event) : sent (a ++ b) = sent a ++ sent b.
Proof.
  induction a as [|[o|o|t] a IH]; simpl; rewrite ?IH; reflexivity.
Qed.

(** The mask of [next_seq] is the remainder modulo 2^32. *)
Lemma next_seq_wraps (c : ControlClient) :
  snd (next_seq c) = (seq c + 1) mod 2 ^ 32
  /\ seq (fst (next_seq c)) = (seq c + 1) mod 2 ^ 32
  /\ sock (fst (next_seq c)) = sock c.
Proof.
  unfold next_seq; cbn [fst snd seq sock].
  change 0xFFFFFFFF with (Z.ones 32).
  rewrite Z.land_ones by lia. auto.
Qed.

Lemma rate_gate_connected (enable_control : bool) (st : loop_state) (tk : tick) :
  rate_gate enable_control st tk = true -> sock (control st) = true.
Proof.
  unfold rate_gate; intro H.
  apply andb_true_iff in H as [H _]; apply andb_true_iff in H as [_ H]; exact H.
Qed.

Lemma idle_gate_connected (enable_control : bool) (st : loop_state) (tk : tick) :
  idle_gate enable_control st tk = true -> sock (control st) = true.
Proof.
  unfold idle_gate; intro H.
  apply andb_true_iff in H as [H _]; apply andb_true_iff in H as [_ H]; exact H.
Qed.

(** What one pass hands to [sendall]: nothing, or the sample, or a
    heartbeat; with the state it leaves. *)
Lemma iteration_cases (enable_control : bool) (st : loop_state) (tk : tick) :
  let s := (seq (control st) + 1) mod 2 ^ 32 in
  (rate_gate enable_control st tk = true
   /\ attempts (snd (iteration enable_control st tk))
      = [VDict (dict_set (read_sample tk) (lit "seq") (VInt s))]
   /\ seq (control (fst (iteration enable_control st tk))) = s
   /\ sock (control (fst (iteration enable_control st tk))) = send_ok tk
   /\ last_send (fst (iteration enable_control st tk)) = now tk
   /\ last_any (fst (iteration enable_control st tk)) = now tk)
  \/ (rate_gate enable_control st tk = false
      /\ idle_gate enable_control st tk = true
      /\ attempts (snd (iteration enable_control st tk)) = [heartbeat_message (hb_ts tk) s]
      /\ seq (control (fst (iteration enable_control st tk))) = s
      /\ sock (control (fst (iteration enable_control st tk))) = send_ok tk
      /\ last_send (fst (iteration enable_control st tk)) = last_send st
      /\ last_any (fst (iteration enable_control st tk)) = now tk)
  \/ (rate_gate enable_control st tk = false
      /\ idle_gate enable_control st tk = false
      /\ iteration enable_control st tk = (st, [])).
Proof.
  intro s; unfold iteration.
  destruct (next_seq_wraps (control st)) as (Hs & Hseq & Hsock).
  destruct (rate_gate enable_control st tk) eqn:Hr;
    [left | destruct (idle_gate enable_control st tk) eqn:Hi; [right; left | right; right]].
  - apply rate_gate_connected in Hr.
    destruct (next_seq (control st)) as [c1 s1]; cbn [fst snd] in *; subst s1.
    unfold send_json_line; rewrite Hsock, Hr; cbn [negb].
    destruct (send_ok tk); cbn [fst snd control last_send last_any attempts];
      repeat split; try reflexivity; try assumption; congruence.
  - apply idle_gate_connected in Hi.
    destruct (next_seq (control st)) as [c1 s1]; cbn [fst snd] in *; subst s1.
    unfold send_json_line; rewrite Hsock, Hi; cbn [negb].
    destruct (send_ok tk); cbn [fst snd control last_send last_any attempts];
      repeat split; try reflexivity; try assumption; congruence.
  - auto.
Qed.

(** C3.  One pass of the loop hands at most one message to the socket.
    When the rate gate holds it is the input sample and no heartbeat, and
    both clocks are set to [now]; a heartbeat goes out only when the rate
    gate does not hold and [(now - last_any) * 1000.0 >= HEARTBEAT_MS],
    and it sets [last_any] alone, leaving [last_send] as it was. *)
Theorem heartbeat_only_when_idle (enable_control : bool) (st st' : loop_state)
    (tk : tick) (evs : list event) :
  iteration enable_control st tk = (st', evs) ->
  (length (attempts evs) <= 1)%nat
  /\ (rate_gate enable_control st tk = true ->
      (exists o, attempts evs = [o] /\ is_input o = true /\ is_heartbeat o = false)
      /\ last_send st' = now tk /\ last_any st' = now tk)
  /\ (forall o, In o (attempts evs) -> is_heartbeat o = true ->
      rate_gate enable_control st tk = false
      /\ idle_gate enable_control st tk = true
      /\ fge (fmul (fsub (now tk) (last_any st)) (float_of_Z 1000)) (float_of_Z 500) = true
      /\ last_send st' = last_send st /\ last_any st' = now tk).
Proof.
  intro E.
  pose proof (iteration_cases enable_control st tk) as H; cbn zeta in H.
  rewrite E in H; cbn [fst snd] in H.
  destruct H as [(Hr & Ha & _ & _ & Hls & Hla)
                |[(Hr & Hi & Ha & _ & _ & Hls & Hla)|(Hr & Hi & Hs)]].
  - rewrite Ha; split; [simpl; lia|split].
    + intros _; split; [eexists; split; [reflexivity|split; reflexivity]|auto].
    + intros o [<-|[]] Hhb; discriminate Hhb.
  - rewrite Ha; split; [simpl; lia|split].
    + intro H; congruence.
    + intros o _ _; repeat split; auto.
      unfold idle_gate in Hi; apply andb_true_iff in Hi as [_ Hi]; exact Hi.
  - injection Hs as -> ->; split; [simpl; lia|split].
    + intro H; congruence.
    + intros o [].
Qed.

(** ** Sequence numbers *)

(** The [k]th message of a session carries [k mod 2^32]. *)
Definition nth_seq (k : nat) : value := VInt (Z.of_nat k mod 2 ^ 32).

Lemma loop_cons (enable_control : bool) (st : loop_state) (tk : tick)
    (ticks : list tick) :
  loop enable_control st (tk :: ticks)
  = (fst (loop enable_control (fst (iteration enable_control st tk)) ticks),
     snd (iteration enable_control st tk)
     ++ snd (loop enable_control (fst (iteration enable_control st tk)) ticks)).
Proof.
  simpl. destruct (iteration enable_control st tk) as [st1 evs1]; simpl.
  destruct (loop enable_control st1 ticks); reflexivity.
Qed.

Lemma succ_mod (k : nat) :
  (Z.of_nat k mod 2 ^ 32 + 1) mod 2 ^ 32 = Z.of_nat (S k) mod 2 ^ 32.
Proof. rewrite Nat2Z.inj_succ, Z.add_mod_idemp_l by lia. reflexivity. Qed.

(** From a counter at [k mod 2^32], the messages of the passes carry
    [k+1], [k+2], ... modulo 2^32, and the counter ends at their number
    past [k]. *)
Lemma loop_seqs (enable_control : bool) (ticks : list tick) :
  forall (st : loop_state) (k : nat),
    seq (control st) = Z.of_nat k mod 2 ^ 32 ->
    map msg_seq (attempts (snd (loop enable_control st ticks)))
    = map nth_seq (List.seq (S k) (length (attempts (snd (loop enable_control st ticks)))))
    /\ seq (control (fst (loop enable_control st ticks)))
       = Z.of_nat (k + length (attempts (snd (loop enable_control st ticks)))) mod 2 ^ 32.
Proof.
  induction ticks as [|tk ticks IH]; intros st k Hk.
  - simpl; rewrite Nat.add_0_r; auto.
  - rewrite loop_cons; cbn [fst snd]; rewrite attempts_app, length_app, map_app.
    pose proof (iteration_cases enable_control st tk) as H; cbn zeta in H.
    rewrite Hk, succ_mod in H.
    destruct H as [(_ & Ha & Hs & _)|[(_ & _ & Ha & Hs & _)|(_ & _ & Hi)]].
    + destruct (IH _ (S k) Hs) as [IH1 IH2].
      rewrite Ha; cbn [length map msg_seq Nat.add List.seq].
      rewrite IH1, IH2; split; [reflexivity|f_equal; f_equal; lia].
    + destruct (IH _ (S k) Hs) as [IH1 IH2].
      rewrite Ha; cbn [length map msg_seq Nat.add List.seq].
      rewrite IH1, IH2; split; [reflexivity|f_equal; f_equal; lia].
    + rewrite Hi; cbn [fst snd attempts length map Nat.add app].
      apply IH, Hk.
Qed.

Lemma nth_seq_injective (i j : nat) :
  (i < j)%nat -> Z.of_nat j - Z.of_nat i < 2 ^ 32 -> nth_seq (S i) <> nth_seq (S j).
Proof.
  intros Hij Hd; unfold nth_seq.
  assert (Ha : Z.of_nat (S j) - Z.of_nat (S i) = Z.of_nat j - Z.of_nat i) by lia.
  remember (Z.of_nat (S i)) as a; remember (Z.of_nat (S j)) as b.
  remember (2 ^ 32) as M; intro E; injection E as E.
  assert (H : (b - a) mod M = 0) by (rewrite Zminus_mod, <- E, Z.sub_diag; subst M; reflexivity).
  rewrite Z.mod_small in H; lia.
Qed.

(** Once the socket is gone, a pass of the loop does nothing. *)
Lemma loop_disconnected (enable_control : bool) (ticks : list tick) (st : loop_state) :
  sock (control st) = false -> loop enable_control st ticks = (st, []).
Proof.
  intro Hs; induction ticks as [|tk ticks IH]; [reflexivity|].
  simpl; unfold iteration, rate_gate, idle_gate.
  rewrite Hs, !andb_false_r; cbn [andb]. now rewrite IH.
Qed.

(** What one pass leaves on the wire and on the console: nothing, one
    message sent, or one message that failed, after which the socket is
    closed. *)
Lemma iteration_events (enable_control : bool) (st : loop_state) (tk : tick) :
  snd (iteration enable_control st tk) = []
  \/ (exists o, snd (iteration enable_control st tk) = [Sent o])
  \/ (exists o t, snd (iteration enable_control st tk) = [SendFailed o; Console t]
                  /\ sock (control (fst (iteration enable_control st tk))) = false).
Proof.
  unfold iteration.
  destruct (rate_gate enable_control st tk) eqn:Hr;
    [apply rate_gate_connected in Hr
    |destruct (idle_gate enable_control st tk) eqn:Hi;
       [apply idle_gate_connected in Hi | now left]];
    unfold next_seq, send_json_line; cbn [sock negb];
    match goal with H : sock _ = true |- _ => rewrite H end; cbn [negb];
    (destruct (send_ok tk); cbn [fst snd];
     [right; left; eexists; reflexivity
     |right; right; do 2 eexists; split; reflexivity]).
Qed.

(** The messages that went out are the first of those handed to the
    socket: after a failure nothing more is handed over. *)
Lemma loop_sent_prefix (enable_control : bool) (ticks : list tick) :
  forall st, exists rest,
    attempts (snd (loop enable_control st ticks))
    = sent (snd (loop enable_control st ticks)) ++ rest.
Proof.
  induction ticks as [|tk ticks IH]; intro st; [now exists []|].
  rewrite loop_cons; cbn [snd]; rewrite attempts_app, sent_app.
  destruct (iteration_events enable_control st tk) as [E|[[o E]|(o & t & E & Hs)]];
    rewrite E; cbn [attempts sent app].
  - apply IH.
  - destruct (IH (fst (iteration enable_control st tk))) as [rest ->].
    now exists rest.
  - rewrite (loop_disconnected enable_control ticks _ Hs); cbn [snd attempts sent].
    now exists [o].
Qed.

Lemma app_eq_prefix {A : Type} (a a' b b' : list A) :
  length a = length a' -> a ++ b = a' ++ b' -> a = a'.
Proof.
  revert a'; induction a as [|x a IH]; intros [|y a'] Hl E; try discriminate; [reflexivity|].
  injection E as -> E; injection Hl as Hl; f_equal; eauto.
Qed.

(** C4.  A session starts with the counter at 0, and the messages it
    hands to the socket, inputs and heartbeats alike, carry 1, 2, 3, ...
    modulo 2^32 in this order; so do those that went out.  Each seq is the
    one before plus one (wrapping to 0 after 2^32 - 1), and no two
    messages fewer than 2^32 apart carry the same seq. *)
Theorem sequence_numbers_consecutive (enable_control connect_ok : bool)
    (t0 : float) (ticks : list tick) :
  seq new_client = 0
  /\ map msg_seq (attempts (snd (run enable_control connect_ok t0 ticks)))
     = map nth_seq
         (List.seq 1 (length (attempts (snd (run enable_control connect_ok t0 ticks)))))
  /\ map msg_seq (sent (snd (run enable_control connect_ok t0 ticks)))
     = map nth_seq
         (List.seq 1 (length (sent (snd (run enable_control connect_ok t0 ticks)))))
  /\ (forall i j a b,
        nth_error (map msg_seq (sent (snd (run enable_control connect_ok t0 ticks)))) i
        = Some a ->
        nth_error (map msg_seq (sent (snd (run enable_control connect_ok t0 ticks)))) j
        = Some b ->
        (i < j)%nat -> Z.of_nat j - Z.of_nat i < 2 ^ 32 -> a <> b).
Proof.
  assert (Hrun :
    map msg_seq (attempts (snd (run enable_control connect_ok t0 ticks)))
    = map nth_seq
        (List.seq 1 (length (attempts (snd (run enable_control connect_ok t0 ticks)))))
    /\ exists rest, attempts (snd (run enable_control connect_ok t0 ticks))
                    = sent (snd (run enable_control connect_ok t0 ticks)) ++ rest).
  { unfold run, start.
    assert (H0 : forall c evs,
               (c, evs) = (if enable_control then connect connect_ok new_client
                           else (new_client, [])) ->
               seq c = 0 /\ attempts evs = [] /\ sent evs = []).
    { intros c evs E; unfold connect in E.
      destruct enable_control, connect_ok; injection E as -> ->; repeat split. }
    destruct (if enable_control then connect connect_ok new_client else (new_client, []))
      as [c evs0] eqn:E0.
    destruct (H0 c evs0 eq_refl) as (Hc & He & He').
    pose proof (loop_seqs enable_control ticks
                  {| control := c; last_send := S754_zero false; last_any := t0 |} 0%nat Hc)
      as [Hl _].
    pose proof (loop_sent_prefix enable_control ticks
                  {| control := c; last_send := S754_zero false; last_any := t0 |})
      as [rest Hp].
    destruct (loop enable_control _ ticks) as [st1 evs1]; cbn [fst snd] in *.
    rewrite !attempts_app, !sent_app, He, He'; cbn [app attempts sent]; rewrite !app_nil_r.
    split; [exact Hl | now exists rest]. }
  destruct Hrun as [Hrun [rest Hp]].
  assert (Hsent :
    map msg_seq (sent (snd (run enable_control connect_ok t0 ticks)))
    = map nth_seq
        (List.seq 1 (length (sent (snd (run enable_control connect_ok t0 ticks)))))).
  { rewrite Hp, length_app, seq_app, !map_app in Hrun.
    apply app_eq_prefix in Hrun; [exact Hrun|].
    now rewrite !length_map, length_seq. }
  split; [reflexivity|split; [exact Hrun|split; [exact Hsent|]]].
  rewrite Hsent; intros i j a b Hi Hj Hij Hd.
  rewrite nth_error_map, nth_error_seq in Hi, Hj.
  destruct (Nat.ltb i _); [|discriminate]; destruct (Nat.ltb j _); [|discriminate].
  injection Hi as <-; injection Hj as <-.
  now apply nth_seq_injective.
Qed.

(** ** Failures *)

(** C5, as amended.  A failed [connect] leaves the client without a
    socket, a failed [sendall] closes the socket, and from then on the
    loop never connects again: whatever the later passes find, they send
    nothing and change nothing. *)
Theorem no_reconnect_after_failure :
  (forall c, sock (fst (connect false c)) = false)
  /\ (forall c obj, sock (fst (send_json_line c obj false)) = false)
  /\ (forall enable_control st ticks,
        sock (control st) = false ->
        loop enable_control st ticks = (st, []))
  /\ (forall enable_control t0 ticks,
        sent (snd (run enable_control false t0 ticks)) = []).
Proof.
  repeat split.
  - intros c obj; unfold send_json_line.
    destruct (sock c) eqn:E; [reflexivity | exact E].
  - intros; now apply loop_disconnected.
  - intros enable_control t0 ticks; unfold run, start.
    assert (H : forall c evs,
              (c, evs) = (if enable_control then connect false new_client
                          else (new_client, [])) ->
              sock c = false /\ sent evs = []).
    { intros c evs E; destruct enable_control; injection E as -> ->; split; reflexivity. }
    destruct (if enable_control then connect false new_client else (new_client, []))
      as [c evs0].
    destruct (H c evs0 eq_refl) as [Hc He].
    rewrite loop_disconnected by exact Hc.
    cbv beta iota; cbn [snd].
    now rewrite sent_app, He.
Qed.

(** ** Runs on concrete input *)

(** A pass at [second] seconds on the clock, with the sticks at rest, two
    buttons released and no hat. *)
Definition tick_at (second : Z) (ok : bool) : tick :=
  {| ts := lit "2024-01-01T00:00:00+00:00";
     hb_ts := lit "2024-01-01T00:00:00.000100+00:00";
     axis_lx := S754_zero false; axis_ly := S754_zero false;
     axis_rx := S754_zero false; axis_ry := S754_zero false;
     axis_lt := S754_zero false; axis_rt := S754_zero false;
     buttons := [0; 0]; hat := None;
     now := float_of_Z second; send_ok := ok |}.

(** [n] passes, one a second, all with the peer reachable. *)
Definition steady_ticks (n : nat) : list tick :=
  map (fun k => tick_at (Z.of_nat k) true) (List.seq 1 n).

(** Connected, 41 messages sent, the last one at second 10. *)
Definition example_state : loop_state :=
  {| control := {| sock := true; seq := 41 |};
     last_send := float_of_Z 10; last_any := float_of_Z 10 |}.

Lemma heartbeat_only_when_idle_witness :
  (length (attempts (snd (iteration true example_state (tick_at 11 true)))) <= 1)%nat.
Proof.
  refine (proj1 (heartbeat_only_when_idle true example_state
                   (fst (iteration true example_state (tick_at 11 true)))
                   (tick_at 11 true)
                   (snd (iteration true example_state (tick_at 11 true))) _)).
  apply surjective_pairing.
Defined.

(** C5 as stated fails: when the one [connect] has failed, or a [sendall]
    has, no number of later passes with the peer reachable makes the
    sender send again. *)
Lemma sender_never_resumes :
  ~ (exists n, sent (snd (run true false (float_of_Z 0) (steady_ticks n))) <> [])
  /\ ~ (exists n, sent (snd (run true true (float_of_Z 0)
                               (tick_at 1 false :: map (fun k => tick_at (Z.of_nat k) true)
                                                      (List.seq 2 n)))) <> []).
Proof.
  split; intros [n H]; apply H; clear H.
  - unfold run, start; cbn [connect new_client].
    now rewrite loop_disconnected.
  - unfold run, start; cbn [connect new_client].
    rewrite loop_cons.
    assert (E : iteration true
                  {| control := {| sock := true; seq := seq new_client |};
                     last_send := S754_zero false; last_any := float_of_Z 0 |}
                  (tick_at 1 false)
                = ({| control := {| sock := false; seq := 1 |};
                      last_send := float_of_Z 1; last_any := float_of_Z 1 |},
                   snd (iteration true
                          {| control := {| sock := true; seq := seq new_client |};
                             last_send := S754_zero false; last_any := float_of_Z 0 |}
                          (tick_at 1 false)))) by reflexivity.
    rewrite E; cbn [fst snd].
    rewrite loop_disconnected by reflexivity.
    reflexivity.
Qed.

Lemma sequence_numbers_consecutive_example :
  map msg_seq (sent (snd (run true true (float_of_Z 0) (steady_ticks 3))))
  = [VInt 1; VInt 2; VInt 3].
Proof.
  exact (proj1 (proj2 (proj2 (sequence_numbers_consecutive true true (float_of_Z 0)
                                (steady_ticks 3))))).
Defined.

Lemma no_reconnect_after_failure_witness :
  loop true {| control := {| sock := false; seq := 3 |};
               last_send := float_of_Z 3; last_any := float_of_Z 3 |}
       (steady_ticks 5)
  = ({| control := {| sock := false; seq := 3 |};
        last_send := float_of_Z 3; last_any := float_of_Z 3 |}, []).
Proof.
  apply (proj1 (proj2 (proj2 no_reconnect_after_failure))); reflexivity.
Defined.

(** The counter wraps: after 2^32 - 1 comes 0. *)
Theorem next_seq_wraps_to_zero :
  snd (next_seq {| sock := true; seq := 2 ^ 32 - 1 |}) = 0
  /\ forall c, 0 <= snd (next_seq c) < 2 ^ 32.
Proof.
  split; [reflexivity|].
  intro c; rewrite (proj1 (next_seq_wraps c)). apply Z.mod_pos_bound; lia.
Qed.

End Sender.

(* ===================================================================== *)
(** * More on the receiver: what a connection writes and what it reads *)
(* ===================================================================== *)

Module Session.
Import Py Defender FrameCodec Receiver.

(** The objects handed to [conn.sendall], in order, whether the call
    returned or raised; and those of the calls that returned. *)
Fixpoint sendalls (evs : list event) : list value :=
  match evs with
  | [] => []
  | Sendall o :: evs' => o :: sendalls evs'
  | SendallRaised o :: evs' => o :: sendalls evs'
  | _ :: evs' => sendalls evs'
  end.

Fixpoint written (evs : list event) : list value :=
  match evs with
  | [] => []
  | Sendall o :: evs' => o :: written evs'
  | _ :: evs' => written evs'
  end.

Definition is_input (msg : value) : bool :=
  eq_str (field msg (lit "type")) (lit "input").

Lemma sendalls_app (a b : list event) : sendalls (a ++ b) = sendalls a ++ sendalls b.
Proof.
  induction a as [|[t|o|o|] a IH]; simpl; rewrite ?IH; reflexivity.
Qed.

Lemma written_app (a b : list event) : written (a ++ b) = written a ++ written b.
Proof.
  induction a as [|[t|o|o|] a IH]; simpl; rewrite ?IH; reflexivity.
Qed.

Section Writes.

Variable json_loads : str -> result value.
Variable float_of_str : str -> option float.

(** With acknowledgments off the dispatch writes nothing. *)
Lemma dispatch_silent (show_heartbeats : bool) (tx : list bool) (line : str)
    (msg : value) :
  sendalls (fst (fst (dispatch float_of_str show_heartbeats false tx line msg))) = [].
Proof.
  unfold dispatch.
  destruct (get msg (lit "type") VNone) as [mtype|]; [|reflexivity].
  destruct (eq_str mtype (lit "input")).
  - destruct (build_line float_of_str msg) as [t|]; cbn [bind]; [|reflexivity].
    unfold print; destruct (unencodable t); reflexivity.
  - destruct (eq_str mtype (lit "heartbeat")); [|reflexivity].
    destruct show_heartbeats; [|reflexivity].
    destruct (get msg (lit "ts") _); cbn [bind]; [|reflexivity].
    destruct (get msg (lit "seq") _); cbn [bind]; [|reflexivity].
    unfold print; destruct (unencodable _); reflexivity.
Qed.

Lemma handle_lines_silent (peer : text) (show_heartbeats : bool)
    (lines : list str) (tx : list bool) :
  sendalls (fst (handle_lines json_loads float_of_str peer show_heartbeats false tx lines))
  = [].
Proof.
  revert tx; induction lines as [|line lines IH]; intro tx; simpl; [reflexivity|].
  assert (Hl : sendalls (fst (fst (handle_line json_loads float_of_str peer
                                     show_heartbeats false tx line))) = []).
  { unfold handle_line. destruct line; [reflexivity|].
    destruct (json_loads _) as [msg|[]]; try reflexivity; apply dispatch_silent. }
  destruct (handle_line json_loads float_of_str peer show_heartbeats false tx line)
    as [[evs tx'] [e|]]; simpl in Hl; [exact Hl|].
  specialize (IH tx').
  destruct (handle_lines json_loads float_of_str peer show_heartbeats false tx' lines)
    as [evs' e']; simpl in *.
  now rewrite sendalls_app, Hl, IH.
Qed.

(** Without [--ack] the receiver never writes to the connection, whatever
    the peer sends. *)
Theorem no_write_without_ack :
  forall c addr show_heartbeats,
    sendalls (fst (handle_client json_loads float_of_str c addr show_heartbeats false))
    = [].
Proof.
  intros c addr show_heartbeats; unfold handle_client.
  pose proof (handle_lines_silent (peer_of addr) show_heartbeats (recv_lines (rx c))
                (tx_ok c)) as H.
  destruct (handle_lines _ _ _ _ _ (tx_ok c) _) as [evs e]; cbn [fst] in *.
  cbn [sendalls]; rewrite sendalls_app, H.
  destruct e; reflexivity.
Qed.

(** With acknowledgments on, a well-formed, displayable message is
    answered by its ack if it is an input, and by nothing otherwise. *)
Lemma dispatch_acks (show_heartbeats : bool) (tx : list bool) (line : str)
    (msg : value) :
  well_formed msg = true -> displayable float_of_str show_heartbeats msg = true ->
  sendalls (fst (fst (dispatch float_of_str show_heartbeats true tx line msg)))
  = (if is_input msg then [ack_for msg] else [])
  /\ written (fst (fst (dispatch float_of_str show_heartbeats true tx line msg)))
     = (if is_input msg && hd true tx then [ack_for msg] else [])
  /\ snd (fst (dispatch float_of_str show_heartbeats true tx line msg))
     = (if is_input msg then tl tx else tx).
Proof.
  destruct msg as [| | | | | |d]; try discriminate; intros H Hd.
  unfold dispatch, is_input; cbn [get field].
  destruct (eq_str (dict_get d (lit "type") VNone) (lit "input")) eqn:Hi.
  - rewrite (print_line_text float_of_str show_heartbeats d H Hi Hd).
    unfold send_ack_for, ack_for; cbn [get field].
    destruct tx as [|[|] tx]; repeat split; reflexivity.
  - destruct (eq_str _ (lit "heartbeat")) eqn:Hh; [|repeat split; reflexivity].
    destruct show_heartbeats; [|repeat split; reflexivity].
    cbn [bind]; unfold print.
    cbn [displayable] in Hd; rewrite Hi, Hh in Hd; cbn [andb] in Hd.
    apply negb_true_iff in Hd; unfold heartbeat_text in Hd; rewrite Hd.
    repeat split; reflexivity.
Qed.

(** The acks written for the input messages [inputs] when the successive
    [sendall] calls fare as [tx] says. *)
Fixpoint acks_written (tx : list bool) (inputs : list value) : list value :=
  match inputs with
  | [] => []
  | m :: inputs' =>
    if hd true tx then ack_for m :: acks_written (tl tx) inputs'
    else acks_written (tl tx) inputs'
  end.

Lemma deliver_acks (show_heartbeats : bool) (lms : list (str * value)) :
  Forall (fun lm => well_formed (snd lm) = true
                    /\ displayable float_of_str show_heartbeats (snd lm) = true) lms ->
  forall tx,
    sendalls (deliver float_of_str show_heartbeats true tx lms)
    = map ack_for (filter is_input (map snd lms))
    /\ written (deliver float_of_str show_heartbeats true tx lms)
       = acks_written tx (filter is_input (map snd lms)).
Proof.
  induction 1 as [|[line msg] lms [Hwf Hdis] _ IH]; intro tx; simpl;
    [split; reflexivity|].
  destruct (dispatch_acks show_heartbeats tx line msg Hwf Hdis) as (Hs & Hw & Htx).
  destruct (dispatch float_of_str show_heartbeats true tx line msg) as [[evs tx'] e].
  cbn [fst snd] in *; subst tx'.
  rewrite sendalls_app, written_app, Hs, Hw.
  destruct (is_input msg); cbn [andb].
  - destruct (IH (tl tx)) as [-> ->]; cbn [acks_written].
    destruct (hd true tx); split; reflexivity.
  - destruct (IH tx) as [-> ->]; split; reflexivity.
Qed.

(** With [--ack], a stream of well-formed, displayable messages is
    answered by one [sendall] for each input message, in the order of
    arrival and with the ack that carries its [seq], and by nothing for the
    other messages; the acks written are those whose [sendall] returned. *)
Theorem one_ack_per_input (sock : list bytes) (tx : list bool) (addr : str * Z)
    (show_heartbeats : bool) (lines : list bytes) (t : bytes) (msgs : list value) :
  received sock = encode_lines lines ++ t ->
  Forall newline_free lines -> newline_free t ->
  Forall2 (fun l m => frame_of l <> [] /\ json_loads (frame_of l) = Ok m
                      /\ well_formed m = true
                      /\ displayable float_of_str show_heartbeats m = true) lines msgs ->
  sendalls (fst (handle_client json_loads float_of_str {| rx := sock; tx_ok := tx |}
                   addr show_heartbeats true))
  = map ack_for (filter is_input msgs)
  /\ written (fst (handle_client json_loads float_of_str {| rx := sock; tx_ok := tx |}
                     addr show_heartbeats true))
     = acks_written tx (filter is_input msgs).
Proof.
  intros Hrx Hls Ht Hmsgs.
  unfold handle_client; cbn [rx tx_ok].
  rewrite (recv_lines_stream sock lines t Hrx Hls Ht).
  rewrite (handle_lines_valid json_loads float_of_str _ _ _ _ _ Hmsgs).
  cbn [fst sendalls written]; rewrite !sendalls_app, !written_app;
    cbn [sendalls written]; rewrite !app_nil_r.
  assert (Hsnd : map snd (combine (map frame_of lines) msgs) = msgs).
  { clear Hrx Hls; induction Hmsgs as [|l m ls ms _ _ IH]; simpl; [reflexivity|].
    now rewrite IH. }
  assert (Hall : Forall (fun lm => well_formed (snd lm) = true
                                   /\ displayable float_of_str show_heartbeats (snd lm)
                                      = true)
                   (combine (map frame_of lines) msgs)).
  { clear Hrx Hls Hsnd; induction Hmsgs as [|l m ls ms (_ & _ & Hw & Hd) _ IH]; simpl;
      constructor; [split|]; assumption. }
  destruct (deliver_acks show_heartbeats _ Hall tx) as [-> ->].
  now rewrite Hsnd.
Qed.

End Writes.

Lemma one_ack_per_input_witness :
  sendalls (fst (handle_client
                   (fun s => if str_eqb s (lit "in") then Ok example_input
                             else example_loads s)
                   no_float
                   {| rx := [lit "in" ++ [NL] ++ lit "{}" ++ [NL] ++ lit "in" ++ [NL]];
                      tx_ok := [false] |}
                   (lit "192.168.50.10", 50000) false true))
  = map ack_for (filter is_input [example_input; VDict []; example_input])
  /\ written (fst (handle_client
                     (fun s => if str_eqb s (lit "in") then Ok example_input
                               else example_loads s)
                     no_float
                     {| rx := [lit "in" ++ [NL] ++ lit "{}" ++ [NL] ++ lit "in" ++ [NL]];
                        tx_ok := [false] |}
                     (lit "192.168.50.10", 50000) false true))
     = acks_written [false] (filter is_input [example_input; VDict []; example_input]).
Proof.
  apply (one_ack_per_input
           (fun s => if str_eqb s (lit "in") then Ok example_input else example_loads s)
           no_float _ [false] (lit "192.168.50.10", 50000) false
           [lit "in"; lit "{}"; lit "in"] []).
  - reflexivity.
  - repeat constructor; discriminate.
  - constructor.
  - repeat constructor; discriminate.
Defined.

(** ** What a frame can hold *)

Lemma in_lstrip (c : Z) (s : str) : In c (lstrip s) -> In c s.
Proof.
  induction s as [|x s IH]; simpl; [tauto|].
  destruct (is_space x); [auto | simpl; tauto].
Qed.

Lemma in_strip (c : Z) (s : str) : In c (strip s) -> In c s.
Proof.
  unfold strip, rstrip; intro H.
  apply in_rev, in_lstrip, in_rev in H. now apply in_lstrip.
Qed.

(** Decoding never makes a newline out of other bytes. *)
Lemma utf8_decode_newline_free_aux (n : nat) :
  forall bs, (length bs <= n)%nat -> newline_free bs -> ~ In NL (utf8_decode bs).
Proof.
  induction n as [|n IH]; intros bs Hlen Hnf.
  - destruct bs; [simpl; tauto | simpl in Hlen; lia].
  - destruct bs as [|b0 r0]; [simpl; tauto|].
    inversion Hnf as [|? ? Hb0 Hr0]; subst.
    assert (IH0 : ~ In NL (utf8_decode r0)) by (apply IH; [simpl in Hlen; lia | assumption]).
    assert (Hrep : REPLACEMENT <> NL) by discriminate.
    cbn [utf8_decode].
    destruct (b0 <? 128) eqn:E1; [simpl; intros [H|H]; [congruence | tauto]|].
    destruct (b0 <? 194) eqn:E2; [simpl; intros [H|H]; [congruence | tauto]|].
    apply Z.ltb_ge in E1, E2.
    destruct (b0 <? 224) eqn:E3.
    { destruct r0 as [|b1 r1]; [simpl; intros [H|[]]; congruence|].
      destruct (is_cont b1) eqn:C1; [|simpl; intros [H|H]; [congruence | tauto]].
      inversion Hr0; subst.
      unfold is_cont in C1; apply andb_true_iff in C1 as [C1 _]; apply Z.leb_le in C1.
      simpl; intros [H|H]; [unfold NL in H; lia|].
      revert H; apply IH; [simpl in Hlen; lia | assumption]. }
    apply Z.ltb_ge in E3.
    destruct (b0 <? 240) eqn:E4.
    { destruct r0 as [|b1 r1]; [simpl; intros [H|[]]; congruence|].
      destruct (bad_second3 b0 b1) eqn:B; [simpl; intros [H|H]; [congruence | tauto]|].
      inversion Hr0 as [|? ? Hb1 Hr1]; subst.
      assert (IH1 : ~ In NL (utf8_decode r1)) by (apply IH; [simpl in Hlen; lia | assumption]).
      destruct r1 as [|b2 r2]; [simpl; intros [H|[]]; congruence|].
      destruct (is_cont b2) eqn:C2; [|simpl; intros [H|H]; [congruence | tauto]].
      inversion Hr1; subst.
      unfold bad_second3 in B; apply orb_false_iff in B as [B1 B2].
      apply negb_false_iff in B1.
      unfold is_cont in B1, C2.
      apply andb_true_iff in B1 as [B1 _]; apply Z.leb_le in B1.
      apply andb_true_iff in C2 as [C2 _]; apply Z.leb_le in C2.
      simpl; intros [H|H].
      - destruct (b1 <? 160) eqn:E5;
          [apply Z.eqb_neq in B2 | apply Z.ltb_ge in E5]; unfold NL in H; lia.
      - revert H; apply IH; [simpl in Hlen; lia | assumption]. }
    apply Z.ltb_ge in E4.
    destruct (b0 <? 245) eqn:E6; [|simpl; intros [H|H]; [congruence | tauto]].
    destruct r0 as [|b1 r1]; [simpl; intros [H|[]]; congruence|].
    destruct (bad_second4 b0 b1) eqn:B; [simpl; intros [H|H]; [congruence | tauto]|].
    inversion Hr0 as [|? ? Hb1 Hr1]; subst.
    assert (IH1 : ~ In NL (utf8_decode r1)) by (apply IH; [simpl in Hlen; lia | assumption]).
    destruct r1 as [|b2 r2]; [simpl; intros [H|[]]; congruence|].
    destruct (is_cont b2) eqn:C2; cbn [negb]; [|simpl; intros [H|H]; [congruence | tauto]].
    inversion Hr1 as [|? ? Hb2 Hr2]; subst.
    assert (IH2 : ~ In NL (utf8_decode r2)) by (apply IH; [simpl in Hlen; lia | assumption]).
    destruct r2 as [|b3 r3]; [simpl; intros [H|[]]; congruence|].
    destruct (is_cont b3) eqn:C3; [|simpl; intros [H|H]; [congruence | tauto]].
    inversion Hr2; subst.
    unfold bad_second4 in B; apply orb_false_iff in B as [B1 B2].
    apply negb_false_iff in B1.
    unfold is_cont in B1, C2, C3.
    apply andb_true_iff in B1 as [B1 _]; apply Z.leb_le in B1.
    apply andb_true_iff in C2 as [C2 _]; apply Z.leb_le in C2.
    apply andb_true_iff in C3 as [C3 _]; apply Z.leb_le in C3.
    simpl; intros [H|H].
    + destruct (b1 <? 144) eqn:E5;
        [apply Z.eqb_neq in B2 | apply Z.ltb_ge in E5]; unfold NL in H; lia.
    + revert H; apply IH; [simpl in Hlen; lia | assumption].
Qed.

(** No frame holds a newline: a frame never spans two lines. *)
Theorem frames_hold_no_newline :
  forall sock f, In f (recv_lines sock) -> ~ In NL f.
Proof.
  intros sock f Hf Hin.
  destruct (stream_decomposition (received sock)) as (ls & t & E & Hls & Ht).
  rewrite (recv_lines_stream sock ls t E Hls Ht) in Hf.
  apply in_map_iff in Hf as (l & <- & Hl).
  apply in_strip in Hin.
  apply (utf8_decode_newline_free_aux (length l) l (le_n _)); [|exact Hin].
  rewrite Forall_forall in Hls; auto.
Qed.

Lemma frames_hold_no_newline_witness : ~ In NL (frame_of (lit "{a}")).
Proof.
  apply (frames_hold_no_newline [lit "{a}" ++ [NL]; lit "{b"] (frame_of (lit "{a}"))).
  rewrite (recv_lines_stream [lit "{a}" ++ [NL]; lit "{b"] [lit "{a}"] (lit "{b"));
    [left; reflexivity | reflexivity | |]; repeat constructor; discriminate.
Defined.

(** Decoding never makes a surrogate: the decoder refuses the bytes that
    would encode one (ED A0..BF), and U+FFFD is none. *)
Lemma not_surrogate (c : Z) : c < 0xD800 \/ 0xDFFF < c -> is_surrogate c = false.
Proof.
  unfold is_surrogate; intros [H|H]; apply andb_false_iff;
    [left | right]; apply Z.leb_gt; lia.
Qed.

Lemma utf8_decode_no_surrogate_aux (n : nat) :
  forall bs, (length bs <= n)%nat ->
             forall c, In c (utf8_decode bs) -> is_surrogate c = false.
Proof.
  induction n as [|n IH]; intros bs Hlen c.
  - destruct bs; [simpl; tauto | simpl in Hlen; lia].
  - destruct bs as [|b0 r0]; [simpl; tauto|].
    assert (IH0 : In c (utf8_decode r0) -> is_surrogate c = false)
      by (apply IH; simpl in Hlen; lia).
    cbn [utf8_decode].
    destruct (b0 <? 128) eqn:E1.
    { apply Z.ltb_lt in E1; simpl; intros [<-|H]; [apply not_surrogate; lia | auto]. }
    destruct (b0 <? 194) eqn:E2; [simpl; intros [<-|H]; [reflexivity | auto]|].
    apply Z.ltb_ge in E1, E2.
    destruct (b0 <? 224) eqn:E3.
    { apply Z.ltb_lt in E3.
      destruct r0 as [|b1 r1]; [simpl; intros [<-|[]]; reflexivity|].
      destruct (is_cont b1) eqn:C1; [|simpl; intros [<-|H]; [reflexivity | auto]].
      unfold is_cont in C1; apply andb_true_iff in C1 as [C1 C1'].
      apply Z.leb_le in C1; apply Z.ltb_lt in C1'.
      simpl; intros [<-|H]; [apply not_surrogate; lia|].
      revert H; apply IH; simpl in Hlen; lia. }
    apply Z.ltb_ge in E3.
    destruct (b0 <? 240) eqn:E4.
    { apply Z.ltb_lt in E4.
      destruct r0 as [|b1 r1]; [simpl; intros [<-|[]]; reflexivity|].
      destruct (bad_second3 b0 b1) eqn:B; [simpl; intros [<-|H]; [reflexivity | auto]|].
      assert (IH1 : In c (utf8_decode r1) -> is_surrogate c = false)
        by (apply IH; simpl in Hlen; lia).
      destruct r1 as [|b2 r2]; [simpl; intros [<-|[]]; reflexivity|].
      destruct (is_cont b2) eqn:C2; [|simpl; intros [<-|H]; [reflexivity | auto]].
      unfold bad_second3 in B; apply orb_false_iff in B as [B1 B2].
      apply negb_false_iff in B1.
      unfold is_cont in B1, C2.
      apply andb_true_iff in B1 as [B1 B1']; apply Z.leb_le in B1; apply Z.ltb_lt in B1'.
      apply andb_true_iff in C2 as [C2 C2']; apply Z.leb_le in C2; apply Z.ltb_lt in C2'.
      simpl; intros [<-|H].
      - apply not_surrogate.
        destruct (b1 <? 160) eqn:E5;
          [apply Z.ltb_lt in E5 | apply Z.ltb_ge in E5; apply Z.eqb_neq in B2]; lia.
      - revert H; apply IH; simpl in Hlen; lia. }
    apply Z.ltb_ge in E4.
    destruct (b0 <? 245) eqn:E6; [|simpl; intros [<-|H]; [reflexivity | auto]].
    destruct r0 as [|b1 r1]; [simpl; intros [<-|[]]; reflexivity|].
    destruct (bad_second4 b0 b1) eqn:B; [simpl; intros [<-|H]; [reflexivity | auto]|].
    assert (IH1 : In c (utf8_decode r1) -> is_surrogate c = false)
      by (apply IH; simpl in Hlen; lia).
    destruct r1 as [|b2 r2]; [simpl; intros [<-|[]]; reflexivity|].
    destruct (is_cont b2) eqn:C2; cbn [negb];
      [|simpl; intros [<-|H]; [reflexivity | auto]].
    assert (IH2 : In c (utf8_decode r2) -> is_surrogate c = false)
      by (apply IH; simpl in Hlen; lia).
    destruct r2 as [|b3 r3]; [simpl; intros [<-|[]]; reflexivity|].
    destruct (is_cont b3) eqn:C3; [|simpl; intros [<-|H]; [reflexivity | auto]].
    unfold bad_second4 in B; apply orb_false_iff in B as [B1 B2].
    apply negb_false_iff in B1.
    unfold is_cont in B1, C2, C3.
    apply andb_true_iff in B1 as [B1 B1']; apply Z.leb_le in B1; apply Z.ltb_lt in B1'.
    apply andb_true_iff in C2 as [C2 C2']; apply Z.leb_le in C2; apply Z.ltb_lt in C2'.
    apply andb_true_iff in C3 as [C3 C3']; apply Z.leb_le in C3; apply Z.ltb_lt in C3'.
    simpl; intros [<-|H].
    + apply not_surrogate.
      destruct (b1 <? 144) eqn:E5;
        [apply Z.ltb_lt in E5; apply Z.eqb_neq in B2 | apply Z.ltb_ge in E5]; lia.
    + revert H; apply IH; simpl in Hlen; lia.
Qed.

(** No frame holds a surrogate: [print] on a UTF-8 stdout accepts a frame,
    and so the lines that show one (the warning for a line that is not
    JSON and the line of a message of unknown type). *)
Theorem frames_hold_no_surrogate :
  forall sock f,
    In f (recv_lines sock) ->
    existsb is_surrogate f = false
    /\ unencodable [Chars (lit "[unknown] "); Chars f] = false
    /\ unencodable [Chars (lit ": "); Chars (firstn 120 f); Chars (lit "...")] = false.
Proof.
  intros sock f Hf.
  destruct (stream_decomposition (received sock)) as (ls & t & E & Hls & Ht).
  rewrite (recv_lines_stream sock ls t E Hls Ht) in Hf.
  apply in_map_iff in Hf as (l & <- & _).
  assert (H : forall c, In c (frame_of l) -> is_surrogate c = false).
  { intros c Hc; apply in_strip in Hc.
    exact (utf8_decode_no_surrogate_aux (length l) l (le_n _) c Hc). }
  assert (Hex : forall s, (forall c, In c s -> is_surrogate c = false) ->
                          existsb is_surrogate s = false).
  { intros s Hs; destruct (existsb is_surrogate s) eqn:Ee; [|reflexivity].
    apply existsb_exists in Ee as (c & Hc & Hsur). rewrite (Hs c Hc) in Hsur.
    discriminate. }
  repeat split.
  - apply Hex; exact H.
  - unfold unencodable; cbn [existsb unencodable_piece].
    rewrite (Hex _ H); reflexivity.
  - unfold unencodable; cbn [existsb unencodable_piece].
    rewrite (Hex (firstn 120 (frame_of l))); [reflexivity|].
    intros c Hc; apply H.
    rewrite <- (firstn_skipn 120 (frame_of l)); apply in_or_app; now left.
Qed.

Lemma frames_hold_no_surrogate_witness :
  existsb is_surrogate (frame_of [237; 160; 128]) = false.
Proof.
  apply (frames_hold_no_surrogate [[237; 160; 128; NL]] (frame_of [237; 160; 128])).
  rewrite (recv_lines_stream [[237; 160; 128; NL]] [[237; 160; 128]] []);
    [left; reflexivity | reflexivity | |]; repeat constructor; discriminate.
Defined.

(** ASCII text is decoded to itself. *)
Lemma utf8_decode_ascii (l : bytes) :
  forallb (fun b => b <? 128) l = true -> utf8_decode l = l.
Proof.
  induction l as [|b l IH]; simpl; [reflexivity|].
  intro H; apply andb_true_iff in H as [-> Hl]; now rewrite IH.
Qed.

(** Round trip of the framing: lines of ASCII text with no newline inside
    and no whitespace at either end, each written with its newline, come
    out of [recv_lines] as they were written, however the bytes are cut
    into reads and whatever follows the last newline. *)
Theorem framing_round_trip (chunks : list bytes) (lines : list bytes) (t : bytes) :
  Forall (fun c => c <> []) chunks ->
  concat chunks = encode_lines lines ++ t ->
  Forall (fun l => forallb (fun b => (b <? 128) && negb (b =? NL)) l = true
                   /\ strip l = l) lines ->
  newline_free t ->
  recv_lines chunks = lines.
Proof.
  intros Hne E Hl Ht.
  destruct (received_nonempty_chunks chunks [] Hne) as [_ Erx].
  rewrite (recv_lines_stream chunks lines t); [| congruence | | exact Ht].
  - clear E; induction Hl as [|l ls [Hascii Hs] _ IH]; simpl; [reflexivity|].
    rewrite IH; f_equal.
    unfold frame_of; rewrite utf8_decode_ascii; [exact Hs|].
    rewrite forallb_forall in *; intros b Hb.
    specialize (Hascii b Hb); apply andb_true_iff in Hascii; tauto.
  - eapply Forall_impl; [|exact Hl].
    intros l [Hascii _]; apply Forall_forall; intros b Hb.
    rewrite forallb_forall in Hascii; specialize (Hascii b Hb).
    apply andb_true_iff in Hascii as [_ Hn].
    apply negb_true_iff, Z.eqb_neq in Hn; exact Hn.
Qed.

Lemma framing_round_trip_witness :
  recv_lines [lit "{a"; lit "}" ++ [NL] ++ lit "{b}"; [NL] ++ lit "{c"]
  = [lit "{a}"; lit "{b}"].
Proof.
  apply (framing_round_trip [lit "{a"; lit "}" ++ [NL] ++ lit "{b}"; [NL] ++ lit "{c"]
           [lit "{a}"; lit "{b}"] (lit "{c")).
  - repeat constructor; discriminate.
  - reflexivity.
  - repeat constructor.
  - repeat constructor; discriminate.
Defined.

End Session.

(* ===================================================================== *)
(** * Defender.py: the accept loop *)
(* ===================================================================== *)

Module Server.
Import Py Defender Receiver.





Section Serve.

Variable json_loads : str -> result value.
Variable float_of_str : str -> option float.












Lemma in_tl_false (pauses : list bool) : In false (tl pauses) -> In false pauses.
Proof. destruct pauses; simpl; auto. Qed.



End Serve.

End Server.

(* ===================================================================== *)
(** * More on the sender, and the sender seen by the receiver *)
(* ===================================================================== *)

Module Wire.
Import Py Sfinx Sender.

(** The input message of a pass: the sample with its [seq] filled in. *)
Definition input_message (tk : tick) (s : Z) : value :=
  VDict (dict_set (read_sample tk) (lit "seq") (VInt s)).

(** The position of the hat, (0, 0) for a controller without one. *)
Definition dpad_of (tk : tick) : Z * Z :=
  match hat tk with
  | Some p => p
  | None => (0, 0)
  end.

(** The names of the buttons held down, among those the device has and
    the sender names. *)
Definition held (bs : list Z) : list str :=
  map fst (filter (fun p => negb (snd p =? 0)) (combine btn_names bs)).

Lemma pressed_names_combine (names : list str) (bs : list Z) :
  Defender.pressed_names (combine names (map VInt bs))
  = map fst (filter (fun p => negb (snd p =? 0)) (combine names bs)).
Proof.
  revert bs; induction names as [|n names IH]; intros [|b bs]; simpl; try reflexivity.
  rewrite IH; destruct (b =? 0); reflexivity.
Qed.

(** Every message of a loop is the input message of one of its passes or
    a heartbeat. *)
Lemma loop_attempts_shape (enable_control : bool) (ticks : list tick) :
  forall st o,
    In o (attempts (snd (loop enable_control st ticks))) ->
    exists tk s, In tk ticks
                 /\ (o = input_message tk s \/ o = heartbeat_message (hb_ts tk) s).
Proof.
  induction ticks as [|tk ticks IH]; intros st o Ho; [destruct Ho|].
  rewrite loop_cons in Ho; cbn [snd] in Ho; rewrite attempts_app in Ho.
  apply in_app_or in Ho as [Ho|Ho].
  - pose proof (iteration_cases enable_control st tk) as H; cbn zeta in H.
    destruct H as [(_ & Ha & _)|[(_ & _ & Ha & _)|(_ & _ & Hi)]].
    + rewrite Ha in Ho; destruct Ho as [<-|[]].
      exists tk; eexists; split; [now left | left; reflexivity].
    + rewrite Ha in Ho; destruct Ho as [<-|[]].
      exists tk; eexists; split; [now left | right; reflexivity].
    + rewrite Hi in Ho; destruct Ho.
  - destruct (IH _ _ Ho) as (tk' & s & Hin & Hs).
    exists tk', s; split; [now right | exact Hs].
Qed.

Lemma run_attempts (enable_control connect_ok : bool) (t0 : float) (ticks : list tick) :
  exists st0,
    attempts (snd (run enable_control connect_ok t0 ticks))
    = attempts (snd (loop enable_control st0 ticks))
    /\ sent (snd (run enable_control connect_ok t0 ticks))
       = sent (snd (loop enable_control st0 ticks))
    /\ seq (control (fst (run enable_control connect_ok t0 ticks)))
       = seq (control (fst (loop enable_control st0 ticks)))
    /\ seq (control st0) = 0.
Proof.
  unfold run, start.
  assert (H0 : forall c evs,
             (c, evs) = (if enable_control then connect connect_ok new_client
                         else (new_client, [])) ->
             seq c = 0 /\ attempts evs = [] /\ sent evs = []).
  { intros c evs E; unfold connect in E.
    destruct enable_control, connect_ok; injection E as -> ->; repeat split. }
  destruct (if enable_control then connect connect_ok new_client else (new_client, []))
    as [c evs0].
  destruct (H0 c evs0 eq_refl) as (Hc & He & He').
  exists {| control := c; last_send := S754_zero false; last_any := t0 |}.
  destruct (loop enable_control _ ticks) as [st1 evs1]; cbn [fst snd control close seq].
  rewrite !attempts_app, !sent_app, He, He'; cbn [app attempts sent].
  now rewrite !app_nil_r.
Qed.

(** The line of an input message of the sender. *)
Definition input_line (tk : tick) (s : Z) : text :=
  [ Chars (lit "["); StrOf (VStr (lit "input"));
    Chars (lit "] seq="); StrOf (VInt s);
    Chars (lit " ts="); StrOf (VStr (ts tk)); Chars (lit "  ");
    Chars (lit "axes(lx="); Chars (format_f (axis_lx tk) 3);
    Chars (lit " ly="); Chars (format_f (axis_ly tk) 3);
    Chars (lit "  rx="); Chars (format_f (axis_rx tk) 3);
    Chars (lit " ry="); Chars (format_f (axis_ry tk) 3);
    Chars (lit "  lt="); Chars (format_f (axis_lt tk) 3);
    Chars (lit " rt="); Chars (format_f (axis_rt tk) 3); Chars (lit ")  ");
    Chars (lit "dpad(x="); StrOf (VInt (fst (dpad_of tk)));
    Chars (lit " y="); StrOf (VInt (snd (dpad_of tk))); Chars (lit ")  ");
    Chars (lit "pressed=[");
    Chars match Defender.join (lit ",") (held (buttons tk)) with
          | [] => lit "-"
          | names => names
          end;
    Chars (lit "]") ].

Lemma build_line_input_message (float_of_str : str -> option float) (tk : tick) (s : Z) :
  Defender.build_line float_of_str (input_message tk s) = Ok (input_line tk s).
Proof.
  unfold input_line, held; rewrite <- pressed_names_combine.
  unfold input_message, dpad_of, read_sample.
  destruct (hat tk) as [[hx hy]|]; reflexivity.
Qed.

(** What the receiver prints for an input message of the sender: the seq
    the sender gave it, the time stamp of the sample, the six axes with
    three decimals, the position of the hat, and the buttons held down. *)
Theorem receiver_line_of_sender_input :
  forall float_of_str tk s,
    Defender.build_line float_of_str (input_message tk s)
    = Ok [ Chars (lit "["); StrOf (VStr (lit "input"));
           Chars (lit "] seq="); StrOf (VInt s);
           Chars (lit " ts="); StrOf (VStr (ts tk)); Chars (lit "  ");
           Chars (lit "axes(lx="); Chars (format_f (axis_lx tk) 3);
           Chars (lit " ly="); Chars (format_f (axis_ly tk) 3);
           Chars (lit "  rx="); Chars (format_f (axis_rx tk) 3);
           Chars (lit " ry="); Chars (format_f (axis_ry tk) 3);
           Chars (lit "  lt="); Chars (format_f (axis_lt tk) 3);
           Chars (lit " rt="); Chars (format_f (axis_rt tk) 3); Chars (lit ")  ");
           Chars (lit "dpad(x="); StrOf (VInt (fst (dpad_of tk)));
           Chars (lit " y="); StrOf (VInt (snd (dpad_of tk))); Chars (lit ")  ");
           Chars (lit "pressed=[");
           Chars match Defender.join (lit ",") (held (buttons tk)) with
                 | [] => lit "-"
                 | names => names
                 end;
           Chars (lit "]") ].
Proof. exact build_line_input_message. Qed.

(** ** Text without surrogates

    The numerals that the receiver formats and the names that the sender
    gives its buttons are ASCII. *)
Lemma uint_chars_plain (u : Decimal.uint) : existsb is_surrogate (uint_chars u) = false.
Proof. induction u; simpl; auto. Qed.

Lemma repeat_plain (n : nat) : existsb is_surrogate (repeat 48 n) = false.
Proof. induction n; simpl; auto. Qed.

Lemma format_f_plain (x : float) (places : nat) :
  existsb is_surrogate (format_f x places) = false.
Proof.
  unfold format_f, digits.
  destruct x as [[|]|[|]| |[|] m e]; cbv zeta; try reflexivity;
    destruct places;
    rewrite ?existsb_app, ?uint_chars_plain, ?repeat_plain; reflexivity.
Qed.

Lemma join_plain (names : list str) :
  Forall (fun n => existsb is_surrogate n = false) names ->
  existsb is_surrogate (Defender.join (lit ",") names) = false.
Proof.
  induction 1 as [|n names Hn _ IH]; [reflexivity|].
  destruct names as [|n' names]; [exact Hn|].
  change (Defender.join (lit ",") (n :: n' :: names))
    with (n ++ lit "," ++ Defender.join (lit ",") (n' :: names)).
  rewrite !existsb_app, Hn, IH; reflexivity.
Qed.

Lemma held_plain (bs : list Z) :
  Forall (fun n => existsb is_surrogate n = false) (held bs).
Proof.
  assert (Hb : Forall (fun n => existsb is_surrogate n = false) btn_names)
    by (repeat constructor).
  rewrite Forall_forall in *; intros n Hn; apply Hb.
  unfold held in Hn; apply in_map_iff in Hn as ([n' b] & <- & Hf).
  apply filter_In in Hf as [Hf _]; exact (in_combine_l _ _ _ _ Hf).
Qed.

(** The line of an input message of the sender is one that [print]
    accepts, if its time stamp is. *)
Lemma input_line_encodable (tk : tick) (s : Z) :
  existsb is_surrogate (ts tk) = false -> unencodable (input_line tk s) = false.
Proof.
  intro Hts; unfold input_line, unencodable.
  cbn [existsb unencodable_piece].
  rewrite !format_f_plain, Hts.
  pose proof (join_plain (held (buttons tk)) (held_plain (buttons tk))) as Hj.
  destruct (Defender.join (lit ",") (held (buttons tk))); [reflexivity|].
  rewrite Hj; reflexivity.
Qed.

(** The time stamps of a pass, as [isoformat()] writes them, hold no
    surrogate. *)
Definition plain_stamps (tk : tick) : Prop :=
  existsb is_surrogate (ts tk) = false /\ existsb is_surrogate (hb_ts tk) = false.

Lemma sender_message_displayable (float_of_str : str -> option float)
    (show_heartbeats : bool) (tk : tick) (s : Z) :
  plain_stamps tk ->
  Receiver.displayable float_of_str show_heartbeats (input_message tk s) = true
  /\ Receiver.displayable float_of_str show_heartbeats
       (heartbeat_message (hb_ts tk) s) = true.
Proof.
  intros [Hts Hhb]; split.
  - assert (Hwf : Receiver.well_formed (input_message tk s) = true) by reflexivity.
    pose proof (build_line_input_message float_of_str tk s) as Hb.
    unfold input_message in *.
    rewrite (Receiver.build_line_well_formed float_of_str _ Hwf) in Hb.
    assert (Hl : Receiver.line_text float_of_str
                   (dict_set (read_sample tk) (lit "seq") (VInt s))
                 = input_line tk s) by congruence.
    cbn [Receiver.displayable].
    replace (eq_str (dict_get (dict_set (read_sample tk) (lit "seq") (VInt s))
                       (lit "type") VNone) (lit "input")) with true by reflexivity.
    rewrite Hl, (input_line_encodable tk s Hts); reflexivity.
  - unfold heartbeat_message; cbn.
    rewrite Hhb; cbn; now rewrite andb_false_r.
Qed.

(** Every message the sender hands to its socket is one the receiver
    serves: it is an input or a heartbeat, well formed, and its dispatch
    ends without an exception, with the ack of its own seq if acks are on
    and it is an input.  The time stamps are those of [isoformat()]: they
    hold no surrogate. *)
Theorem sender_messages_are_served :
  forall enable_control connect_ok t0 ticks o,
    Forall plain_stamps ticks ->
    In o (attempts (snd (run enable_control connect_ok t0 ticks))) ->
    Receiver.well_formed o = true
    /\ (is_input o = true \/ is_heartbeat o = true)
    /\ (forall float_of_str show_heartbeats send_ack tx line,
           snd (Defender.dispatch float_of_str show_heartbeats send_ack tx line o) = None)
    /\ (forall float_of_str show_heartbeats tx line,
           Session.sendalls
             (fst (fst (Defender.dispatch float_of_str show_heartbeats true tx line o)))
           = if is_input o then [Receiver.ack_for o] else []).
Proof.
  intros enable_control connect_ok t0 ticks o Hstamps Ho.
  destruct (run_attempts enable_control connect_ok t0 ticks) as (st0 & Ea & _).
  rewrite Ea in Ho.
  destruct (loop_attempts_shape _ _ _ _ Ho) as (tk & s & Htk & Hs).
  rewrite Forall_forall in Hstamps; specialize (Hstamps tk Htk).
  assert (Hwf : Receiver.well_formed o = true).
  { destruct Hs as [-> | ->]; [unfold input_message|]; reflexivity. }
  assert (Hty : is_input o = true /\ is_heartbeat o = false
                \/ is_input o = false /\ is_heartbeat o = true).
  { destruct Hs as [-> | ->]; [left | right]; split; reflexivity. }
  assert (Hdis : forall float_of_str show_heartbeats,
             Receiver.displayable float_of_str show_heartbeats o = true).
  { intros float_of_str show_heartbeats.
    destruct (sender_message_displayable float_of_str show_heartbeats tk s Hstamps).
    destruct Hs as [-> | ->]; assumption. }
  split; [exact Hwf|split; [tauto|split]].
  - intros; now apply Receiver.dispatch_well_formed.
  - intros float_of_str show_heartbeats tx line.
    destruct (Session.dispatch_acks float_of_str show_heartbeats tx line o Hwf
                (Hdis float_of_str show_heartbeats)) as [-> _].
    destruct Hs as [-> | ->]; reflexivity.
Qed.

Lemma sender_messages_are_served_witness :
  Receiver.well_formed (input_message (tick_at 1 true) 1) = true.
Proof.
  refine (proj1 (sender_messages_are_served true true (float_of_Z 0) (steady_ticks 2)
                   (input_message (tick_at 1 true) 1) _ _)).
  - repeat constructor.
  - left; reflexivity.
Defined.

(** ** The switch and the failures *)



Lemma loop_one_failure (enable_control : bool) (ticks : list tick) :
  forall st, exists rest,
    attempts (snd (loop enable_control st ticks))
    = sent (snd (loop enable_control st ticks)) ++ rest
    /\ (length rest <= 1)%nat.
Proof.
  induction ticks as [|tk ticks IH]; intro st; [exists []; split; [reflexivity | simpl; lia]|].
  rewrite loop_cons; cbn [snd]; rewrite attempts_app, sent_app.
  destruct (iteration_events enable_control st tk) as [E|[[o E]|(o & t & E & Hs)]];
    rewrite E; cbn [attempts sent app].
  - apply IH.
  - destruct (IH (fst (iteration enable_control st tk))) as (rest & -> & Hr).
    now exists rest.
  - rewrite (loop_disconnected enable_control ticks _ Hs); cbn [snd attempts sent].
    exists [o]; split; [reflexivity | simpl; lia].
Qed.

(** A session has at most one failed send, and it is its last: the
    messages handed to the socket are those that went out, followed by at
    most one that did not.  The counter ends at the number of messages
    handed over, modulo 2^32: a message that fails takes its number. *)
Theorem one_failure_ends_the_session :
  forall enable_control connect_ok t0 ticks,
    (exists rest,
        attempts (snd (run enable_control connect_ok t0 ticks))
        = sent (snd (run enable_control connect_ok t0 ticks)) ++ rest
        /\ (length rest <= 1)%nat)
    /\ seq (control (fst (run enable_control connect_ok t0 ticks)))
       = Z.of_nat (length (attempts (snd (run enable_control connect_ok t0 ticks))))
         mod 2 ^ 32.
Proof.
  intros enable_control connect_ok t0 ticks.
  destruct (run_attempts enable_control connect_ok t0 ticks) as (st0 & Ea & Es & Eq & H0).
  rewrite Ea, Es, Eq; split; [apply loop_one_failure|].
  now destruct (loop_seqs enable_control ticks st0 0%nat H0) as [_ ->].
Qed.

End Wire.

(* ===================================================================== *)
(** * Facts about binary64 arithmetic *)
(* ===================================================================== *)

Module FloatFacts.
Import Py.

(** A mantissa that fits the 53 bits of a double. *)
Definition small_mantissa (x : float) : Prop :=
  match x with
  | S754_finite _ m _ => Zpos m < 2 ^ 53
  | _ => True
  end.

Lemma digits2_upper (m : positive) : Zpos m < 2 ^ Zpos (digits2_pos m).
Proof.
  induction m as [m IH|m IH|]; cbn [digits2_pos]; [| |reflexivity];
    rewrite Pos2Z.inj_succ, Z.pow_succ_r by lia; lia.
Qed.

Lemma digits2_lower (m : positive) : 2 ^ (Zpos (digits2_pos m) - 1) <= Zpos m.
Proof.
  induction m as [m IH|m IH|]; cbn [digits2_pos]; [| |simpl; lia];
    rewrite Pos2Z.inj_succ;
    replace (Z.succ (Zpos (digits2_pos m)) - 1) with (Z.succ (Zpos (digits2_pos m) - 1))
      by lia;
    rewrite Z.pow_succ_r by lia; lia.
Qed.

Lemma Zdigits2_upper (m : Z) : 0 <= m -> m < 2 ^ Zdigits2 m.
Proof.
  destruct m as [|p|p]; intro H; [reflexivity | apply digits2_upper | lia].
Qed.

Lemma Zdigits2_le (m k : Z) : 0 <= m -> 0 <= k -> m < 2 ^ k -> Zdigits2 m <= k.
Proof.
  destruct m as [|p|p]; intros Hm Hk H; [exact Hk | | lia].
  cbn [Zdigits2].
  pose proof (digits2_lower p) as Hl.
  destruct (Z_le_gt_dec (Zpos (digits2_pos p)) k) as [|Hgt]; [assumption|].
  assert (2 ^ k <= 2 ^ (Zpos (digits2_pos p) - 1)) by (apply Z.pow_le_mono_r; lia).
  lia.
Qed.

Lemma shr_1_m (mrs : shr_record) :
  0 <= shr_m mrs -> shr_m (shr_1 mrs) = shr_m mrs / 2 /\ 0 <= shr_m (shr_1 mrs).
Proof.
  destruct mrs as [m r s]; cbn [shr_m]; intro H.
  destruct m as [|[p|p|]|p]; cbn [shr_1 shr_m].
  - split; [reflexivity | lia].
  - split; [apply Z.div_unique with (r := 1); lia | lia].
  - split; [apply Z.div_unique with (r := 0); lia | lia].
  - split; [reflexivity | lia].
  - lia.
Qed.

Lemma shr_m_iter (p : positive) :
  forall mrs, 0 <= shr_m mrs ->
              shr_m (iter_pos shr_1 p mrs) = shr_m mrs / 2 ^ Zpos p
              /\ 0 <= shr_m (iter_pos shr_1 p mrs).
Proof.
  induction p as [p IH|p IH|]; intros mrs H; cbn [iter_pos].
  - destruct (shr_1_m mrs H) as [E1 H1].
    destruct (IH _ H1) as [E2 H2]. destruct (IH _ H2) as [E3 H3].
    split; [|exact H3].
    rewrite E3, E2, E1, !Z.div_div by lia.
    f_equal. rewrite (Pos2Z.inj_xI p).
    replace (2 * Z.pos p + 1) with (1 + Z.pos p + Z.pos p) by lia.
    rewrite !Z.pow_add_r by lia. change (2 ^ 1) with 2. ring.
  - destruct (IH _ H) as [E2 H2]. destruct (IH _ H2) as [E3 H3].
    split; [|exact H3].
    rewrite E3, E2, !Z.div_div by lia.
    f_equal. rewrite (Pos2Z.inj_xO p).
    replace (2 * Z.pos p) with (Z.pos p + Z.pos p) by lia.
    rewrite !Z.pow_add_r by lia. ring.
  - destruct (shr_1_m mrs H) as [E1 H1]; split; [exact E1 | exact H1].
Qed.

Lemma shr_record_of_loc_m (m : Z) (l : location) : shr_m (shr_record_of_loc m l) = m.
Proof. destruct l as [|[]]; reflexivity. Qed.

Lemma fexp_bounds (x : Z) : x - 53 <= fexp prec emax x /\ -1074 <= fexp prec emax x
                            /\ (fexp prec emax x = x - 53 \/ fexp prec emax x = -1074).
Proof. unfold fexp, emin, prec, emax; lia. Qed.

(** The shift that brings a mantissa to the precision: what is left fits
    53 bits, and the exponent is the larger of the old one and the one
    the format asks for. *)
Lemma shr_fexp_spec (m e : Z) (l : location) :
  0 <= m ->
  0 <= shr_m (fst (shr_fexp prec emax m e l))
  /\ shr_m (fst (shr_fexp prec emax m e l)) < 2 ^ 53
  /\ snd (shr_fexp prec emax m e l) = Z.max e (fexp prec emax (Zdigits2 m + e)).
Proof.
  intro Hm; unfold shr_fexp, shr.
  pose proof (fexp_bounds (Zdigits2 m + e)) as (Hf & _ & _).
  pose proof (Zdigits2_upper m Hm) as Hd.
  assert (Hdig : 0 <= Zdigits2 m) by (destruct m; cbn; lia).
  destruct (fexp prec emax (Zdigits2 m + e) - e) as [|p|p] eqn:En; cbn [fst snd].
  - rewrite shr_record_of_loc_m; repeat split; [exact Hm| |lia].
    assert (2 ^ Zdigits2 m <= 2 ^ 53) by (apply Z.pow_le_mono_r; lia). lia.
  - destruct (shr_m_iter p (shr_record_of_loc m l)) as [E H];
      [now rewrite shr_record_of_loc_m|].
    rewrite shr_record_of_loc_m in E.
    repeat split; [exact H| |lia].
    rewrite E; apply Z.div_lt_upper_bound; [lia|].
    rewrite <- Z.pow_add_r by lia.
    assert (2 ^ Zdigits2 m <= 2 ^ (Z.pos p + 53)) by (apply Z.pow_le_mono_r; lia). lia.
  - rewrite shr_record_of_loc_m; repeat split; [exact Hm| |lia].
    assert (2 ^ Zdigits2 m <= 2 ^ 53) by (apply Z.pow_le_mono_r; lia). lia.
Qed.

Lemma round_nearest_even_bounds (m : Z) (l : location) :
  m <= round_nearest_even m l <= m + 1.
Proof. destruct l as [|[]]; cbn; try destruct (Z.even m); lia. Qed.

(** What rounding returns: a zero, a NaN, or, for an exponent no larger
    than the operand's own (or the one the format asks for) plus one, a
    number whose mantissa fits 53 bits, or an infinity if that exponent
    is too large. *)
Lemma binary_round_aux_shape (sx : bool) (mx ex : Z) (lx : location) :
  0 <= mx ->
  binary_round_aux prec emax sx mx ex lx = S754_zero sx
  \/ binary_round_aux prec emax sx mx ex lx = S754_nan
  \/ exists m e,
      e <= Z.max ex (fexp prec emax (Zdigits2 mx + ex)) + 1
      /\ Zpos m < 2 ^ 53
      /\ binary_round_aux prec emax sx mx ex lx
         = if e <=? emax - prec then S754_finite sx m e else S754_infinity sx.
Proof.
  intro Hm; unfold binary_round_aux.
  destruct (shr_fexp_spec mx ex lx Hm) as (H1 & H1' & E1).
  destruct (shr_fexp prec emax mx ex lx) as [mrs' e']; cbn [fst snd] in *.
  pose proof (round_nearest_even_bounds (shr_m mrs') (loc_of_shr_record mrs')) as Hr.
  set (m1 := round_nearest_even (shr_m mrs') (loc_of_shr_record mrs')) in *.
  assert (Hm1 : 0 <= m1) by lia.
  destruct (shr_fexp_spec m1 e' loc_Exact Hm1) as (H2 & H2' & E2).
  destruct (shr_fexp prec emax m1 e' loc_Exact) as [mrs'' e'']; cbn [fst snd] in *.
  destruct (shr_m mrs'') as [|m|m]; [now left | | right; now left].
  right; right; exists m, e''; repeat split; [|exact H2'].
  assert (Hd1 : Zdigits2 m1 <= 54) by (apply Zdigits2_le; lia).
  pose proof (fexp_bounds (Zdigits2 m1 + e')) as (_ & _ & Hc).
  pose proof (fexp_bounds (Zdigits2 mx + ex)) as (_ & Hmin & _).
  lia.
Qed.

Lemma binary_round_aux_small (sx : bool) (mx ex : Z) (lx : location) :
  0 <= mx -> small_mantissa (binary_round_aux prec emax sx mx ex lx).
Proof.
  intro Hm.
  destruct (binary_round_aux_shape sx mx ex lx Hm) as [E|[E|(m & e & _ & H & E)]];
    rewrite E; [exact I | exact I |].
  destruct (e <=? emax - prec); [exact H | exact I].
Qed.

Lemma valid_small (x : float) : valid_binary prec emax x = true -> small_mantissa x.
Proof.
  destruct x as [s|s| |s m e]; cbn; trivial.
  unfold bounded, canonical_mantissa; intro H.
  apply andb_true_iff in H as [H _]; apply Z.eqb_eq in H.
  pose proof (fexp_bounds (Zpos (digits2_pos m) + e)) as (Hf & _).
  pose proof (digits2_upper m).
  assert (2 ^ Zpos (digits2_pos m) <= 2 ^ 53) by (apply Z.pow_le_mono_r; lia). lia.
Qed.

Lemma binary_normalize_small (m e : Z) (sz : bool) :
  small_mantissa (binary_normalize prec emax m e sz).
Proof.
  unfold binary_normalize, binary_round.
  destruct m as [|p|p]; cbn [small_mantissa]; trivial;
    destruct (shl_align _ _ _); apply binary_round_aux_small; lia.
Qed.

Lemma fmul_small (x y : float) : small_mantissa (fmul x y).
Proof.
  unfold fmul, SFmul.
  destruct x as [sx|sx| |sx mx ex], y as [sy|sy| |sy my ey]; cbn [small_mantissa]; trivial.
  apply binary_round_aux_small; lia.
Qed.

Lemma fsub_small (x y : float) :
  small_mantissa x -> small_mantissa y -> small_mantissa (fsub x y).
Proof.
  unfold fsub, SFsub.
  destruct x as [sx|sx| |sx mx ex], y as [sy|sy| |sy my ey]; intros Hx Hy;
    cbv beta iota zeta;
    try exact I; try exact Hx; try exact Hy;
    try apply binary_normalize_small;
    destruct sx, sy; try exact I; try exact Hx; exact Hy.
Qed.

End FloatFacts.

(* ===================================================================== *)
(** * Sfinx.py: reading an axis *)
(* ===================================================================== *)

Module Controller.
Import Py Sfinx FloatFacts.

Definition fadd : float -> float -> float := SFadd prec emax.

(** [DEADZONE = 0.04]: the double nearest to 4/100. *)
Definition DEADZONE : float := fdiv (float_of_Z 4) (float_of_Z 100).

(** [min(a, b)] and [max(a, b)]: the first argument, unless the second is
    smaller (larger); a comparison with a NaN is false. *)
Definition py_min (a b : float) : float := if SFltb b a then b else a.
Definition py_max (a b : float) : float := if SFltb a b then b else a.

(** [k / 10^ndigits] for a natural [k], with the sign [s]: the double
    nearest to it. *)
Definition grid (ndigits : nat) (s : bool) (k : Z) : float :=
  match k with
  | Zpos p =>
    SFdiv prec emax (S754_finite s p 0)
      (S754_finite false (Z.to_pos (10 ^ Z.of_nat ndigits)) 0)
  | _ => S754_zero s
  end.

(** [round(x, ndigits)] for [0 <= ndigits]: the decimal with [ndigits]
    places nearest to [x] (ties to the even last digit), as the double
    nearest to it; a NaN, an infinity and a zero are returned as they
    are. *)
Definition py_round (x : float) (ndigits : nat) : float :=
  match x with
  | S754_finite s m e => grid ndigits s (round_scaled m e (10 ^ Z.of_nat ndigits))
  | _ => x
  end.

(** [_axis(js, idx, dead=..., to01=...)], lines 197-204; [raw] is what
    [js.get_axis(idx)] returns. *)
Definition _axis (raw : float) (dead : float) (to01 : bool) : float :=
  let v := raw in
  let v := if SFltb (SFabs v) dead then S754_zero false else v in
  let v := if to01
           then fmul (fadd v (float_of_Z 1)) (fdiv (float_of_Z 1) (float_of_Z 2))
           else v in
  let v := py_max (float_of_Z (-1)) (py_min (float_of_Z 1) v) in
  py_round v 3.

(** Inside the dead zone a stick reads exactly 0.0 and a trigger exactly
    0.5, whatever the dead zone is. *)
Theorem dead_zone_is_flat (raw dead : float) :
  SFltb (SFabs raw) dead = true ->
  _axis raw dead false = S754_zero false
  /\ _axis raw dead true = fdiv (float_of_Z 1) (float_of_Z 2).
Proof. intro H; unfold _axis; rewrite H; split; reflexivity. Qed.

Lemma dead_zone_is_flat_witness :
  _axis (fdiv (float_of_Z (-3)) (float_of_Z 100)) DEADZONE false = S754_zero false
  /\ _axis (fdiv (float_of_Z (-3)) (float_of_Z 100)) DEADZONE true
     = fdiv (float_of_Z 1) (float_of_Z 2).
Proof.
  apply (dead_zone_is_flat (fdiv (float_of_Z (-3)) (float_of_Z 100)) DEADZONE).
  reflexivity.
Defined.

Lemma two_pow_52 : 2 ^ 52 = Zpos 4503599627370496.
Proof. vm_compute; reflexivity. Qed.

(** Comparing two finite numbers of the same sign compares the exponents,
    then the mantissas. *)
Lemma SFltb_pos_pos (m m' : positive) (e e' : Z) :
  SFltb (S754_finite false m e) (S754_finite false m' e') = true ->
  e < e' \/ (e = e' /\ (m < m')%positive).
Proof.
  unfold SFltb, SFcompare.
  destruct (Z.compare_spec e e') as [E|E|E]; [|left; exact E|discriminate].
  intro H; right; split; [exact E|].
  apply Pos.compare_lt_iff.
  destruct (Pos.compare_cont Eq m m') eqn:C; try discriminate; exact C.
Qed.

Lemma SFltb_neg_neg (m m' : positive) (e e' : Z) :
  SFltb (S754_finite true m' e') (S754_finite true m e) = true ->
  e < e' \/ (e = e' /\ (m < m')%positive).
Proof.
  unfold SFltb, SFcompare.
  destruct (Z.compare_spec e' e) as [E|E|E]; [|discriminate|left; lia].
  intro H; right; split; [symmetry; exact E|].
  apply Pos.compare_gt_iff.
  destruct (Pos.compare_cont Eq m' m) eqn:C; try discriminate; exact C.
Qed.

(** A finite number that compares strictly between -1.0 and 1.0 has a
    mantissa below [2^(-e)]. *)
Lemma below_one (s : bool) (m : positive) (e : Z) :
  Zpos m < 2 ^ 53 ->
  SFltb (S754_finite s m e) (float_of_Z 1) = true ->
  SFltb (float_of_Z (-1)) (S754_finite s m e) = true ->
  e < 0 /\ Zpos m < 2 ^ (- e).
Proof.
  intros Hm A B.
  change (float_of_Z 1) with (S754_finite false 4503599627370496 (-52)) in A.
  change (float_of_Z (-1)) with (S754_finite true 4503599627370496 (-52)) in B.
  assert (H : e < -52 \/ (e = -52 /\ Zpos m < 2 ^ 52)).
  { assert (H : e < -52 \/ (e = -52 /\ (m < 4503599627370496)%positive)).
    { destruct s; [apply SFltb_neg_neg in B; exact B | apply SFltb_pos_pos in A; exact A]. }
    clear A B.
    destruct H as [H|[H H']]; [left; exact H | right; split; [exact H|]].
    rewrite two_pow_52; apply Pos2Z.pos_lt_pos; exact H'. }
  clear A B.
  destruct H as [H|[-> H]]; [|split; [reflexivity | exact H]].
  split; [lia|].
  assert (2 ^ 53 <= 2 ^ (- e)) by (apply Z.pow_le_mono_r; lia).
  eapply Z.lt_le_trans; eassumption.
Qed.

(** Below one in magnitude, the number of thousandths is at most 1000. *)
Lemma round_scaled_below_one (m : positive) (e : Z) :
  e < 0 -> Zpos m < 2 ^ (- e) -> 0 <= round_scaled m e 1000 <= 1000.
Proof.
  intros He Hm; unfold round_scaled.
  destruct (0 <=? e) eqn:E; [apply Z.leb_le in E; lia|].
  assert (Hd : 0 < 2 ^ (- e)) by (apply Z.pow_pos_nonneg; lia).
  set (den := 2 ^ (- e)) in *.
  assert (Hq : 0 <= Zpos m * 1000 / den) by (apply Z.div_pos; lia).
  assert (Hq' : Zpos m * 1000 / den < 1000) by (apply Z.div_lt_upper_bound; lia).
  cbv zeta.
  destruct (2 * ((Zpos m * 1000) mod den) ?= den); [destruct (Z.even _)| |]; lia.
Qed.

(** The sign of a number; a NaN counts as unsigned. *)
Definition sign_bit (x : float) : bool :=
  match x with
  | S754_zero s | S754_infinity s | S754_finite s _ _ => s
  | S754_nan => false
  end.

(** Clamping to [-1.0, 1.0] and rounding to three places gives a number
    of thousandths between 0 and 1000, with the sign of the number. *)
Lemma clamp_round (v : float) :
  small_mantissa v ->
  exists s k,
    0 <= k <= 1000
    /\ py_round (py_max (float_of_Z (-1)) (py_min (float_of_Z 1) v)) 3 = grid 3 s k
    /\ (s = true -> sign_bit v = true).
Proof.
  intro Hv; unfold py_min, py_max.
  destruct v as [s|s| |s m e].
  - exists s, 0; destruct s; repeat split; try lia; intro; assumption.
  - destruct s.
    + exists true, 1000; repeat split; lia.
    + exists false, 1000; repeat split; try lia; intro; assumption.
  - exists false, 1000; repeat split; try lia; intro; assumption.
  - destruct (SFltb (S754_finite s m e) (float_of_Z 1)) eqn:A.
    + destruct (SFltb (float_of_Z (-1)) (S754_finite s m e)) eqn:B.
      * destruct (below_one s m e Hv A B) as [He Hm].
        exists s, (round_scaled m e 1000); repeat split;
          try apply (round_scaled_below_one m e He Hm).
        intro; assumption.
      * exists true, 1000; repeat split; try lia.
        intros _; destruct s; [reflexivity | discriminate B].
    + exists false, 1000.
      replace (SFltb (float_of_Z (-1)) (float_of_Z 1)) with true by reflexivity.
      repeat split; try lia; discriminate.
Qed.

(** The numbers of thousandths between -1000 and 1000 are the doubles
    between -1.0 and 1.0 that [_axis] can return. *)
Lemma grid_in_range (s : bool) (k : Z) :
  0 <= k <= 1000 ->
  fge (grid 3 s k) (float_of_Z (-1)) = true /\ fge (float_of_Z 1) (grid 3 s k) = true
  /\ (s = false -> fge (grid 3 s k) (S754_zero false) = true).
Proof.
  intro Hk.
  assert (H : forallb (fun n =>
                let k := Z.of_nat n in
                fge (grid 3 true k) (float_of_Z (-1)) && fge (float_of_Z 1) (grid 3 true k)
                && fge (grid 3 false k) (float_of_Z (-1)) && fge (float_of_Z 1) (grid 3 false k)
                && fge (grid 3 false k) (S754_zero false))
              (List.seq 0 1001) = true) by (vm_compute; reflexivity).
  rewrite forallb_forall in H.
  specialize (H (Z.to_nat k)); rewrite Z2Nat.id in H by lia.
  assert (Hin : In (Z.to_nat k) (List.seq 0 1001)) by (apply in_seq; lia).
  specialize (H Hin); cbv zeta in H.
  repeat (apply andb_true_iff in H as [H ?]).
  destruct s; repeat split; try assumption; intro; try assumption; discriminate.
Qed.

(** Whatever the device reports, [_axis] returns a whole number of
    thousandths between -1.0 and 1.0 (never a NaN or an infinity). *)
Theorem axis_on_grid (raw dead : float) (to01 : bool) :
  valid_binary prec emax raw = true ->
  exists s k,
    0 <= k <= 1000
    /\ _axis raw dead to01 = grid 3 s k
    /\ fge (_axis raw dead to01) (float_of_Z (-1)) = true
    /\ fge (float_of_Z 1) (_axis raw dead to01) = true.
Proof.
  intro Hraw; apply valid_small in Hraw; unfold _axis; cbv zeta.
  set (v2 := if to01 then _ else _).
  assert (Hv : small_mantissa v2).
  { subst v2; destruct to01; [apply fmul_small|].
    destruct (SFltb (SFabs raw) dead); [exact I | exact Hraw]. }
  destruct (clamp_round v2 Hv) as (s & k & Hk & E & _).
  exists s, k; rewrite E.
  destruct (grid_in_range s k Hk) as (H1 & H2 & _); auto.
Qed.

Lemma axis_on_grid_witness :
  exists s k,
    0 <= k <= 1000
    /\ _axis (fdiv (float_of_Z 7) (float_of_Z 3)) DEADZONE true = grid 3 s k
    /\ fge (_axis (fdiv (float_of_Z 7) (float_of_Z 3)) DEADZONE true) (float_of_Z (-1)) = true
    /\ fge (float_of_Z 1) (_axis (fdiv (float_of_Z 7) (float_of_Z 3)) DEADZONE true) = true.
Proof.
  apply (axis_on_grid (fdiv (float_of_Z 7) (float_of_Z 3)) DEADZONE true); reflexivity.
Defined.

(** What [_axis] returns is on the grid. *)
Lemma axis_is_grid (raw dead : float) (to01 : bool) :
  small_mantissa raw ->
  exists s k, 0 <= k <= 1000 /\ _axis raw dead to01 = grid 3 s k.
Proof.
  intro Hraw; unfold _axis; cbv zeta.
  set (v2 := if to01 then _ else _).
  assert (Hv : small_mantissa v2).
  { subst v2; destruct to01; [apply fmul_small|].
    destruct (SFltb (SFabs raw) dead); [exact I | exact Hraw]. }
  destruct (clamp_round v2 Hv) as (s & k & Hk & E & _).
  exists s, k; split; assumption.
Qed.

(** The numeral of [k / 1000] with three decimals, and its sign. *)
Definition thousandths (s : bool) (k : Z) : str :=
  (if s then lit "-" else [])
  ++ digits (k / 1000) ++ lit "."
  ++ repeat 48 (3 - length (digits (k mod 1000))) ++ digits (k mod 1000).

(** Formatting a number of the grid with three decimals gives back its
    thousandths: the double nearest to [k / 1000] is shown as [k / 1000]. *)
Lemma format_grid (s : bool) (k : Z) :
  0 <= k <= 1000 -> format_f (grid 3 s k) 3 = thousandths s k.
Proof.
  intro Hk.
  assert (H : forallb (fun n =>
                let k := Z.of_nat n in
                str_eqb (format_f (grid 3 true k) 3) (thousandths true k)
                && str_eqb (format_f (grid 3 false k) 3) (thousandths false k))
              (List.seq 0 1001) = true) by (vm_compute; reflexivity).
  rewrite forallb_forall in H.
  specialize (H (Z.to_nat k)); rewrite Z2Nat.id in H by lia.
  assert (Hin : In (Z.to_nat k) (List.seq 0 1001)) by (apply in_seq; lia).
  specialize (H Hin); cbv zeta in H.
  apply andb_true_iff in H as [Ht Hf].
  destruct s; apply PyFacts.str_eqb_eq; assumption.
Qed.

(** The receiver shows an axis as the sender rounded it: [fmt_float] of
    what [_axis] returns is the numeral of the thousandths [_axis] chose,
    with no further rounding. *)
Theorem axis_shown_as_rounded (float_of_str : str -> option float)
    (raw dead : float) (to01 : bool) :
  valid_binary prec emax raw = true ->
  exists s k,
    0 <= k <= 1000
    /\ _axis raw dead to01 = grid 3 s k
    /\ Defender.fmt_float float_of_str (VFloat (_axis raw dead to01)) 3 = thousandths s k.
Proof.
  intro Hraw; apply valid_small in Hraw.
  destruct (axis_is_grid raw dead to01 Hraw) as (s & k & Hk & E).
  exists s, k; repeat split; try apply Hk; [exact E|].
  rewrite E; unfold Defender.fmt_float; cbn [Defender.py_float].
  apply format_grid; exact Hk.
Qed.

Lemma axis_shown_as_rounded_witness :
  exists s k,
    0 <= k <= 1000
    /\ _axis (fdiv (float_of_Z (-2)) (float_of_Z 3)) DEADZONE false = grid 3 s k
    /\ Defender.fmt_float (fun _ => None)
         (VFloat (_axis (fdiv (float_of_Z (-2)) (float_of_Z 3)) DEADZONE false)) 3
       = thousandths s k.
Proof.
  apply (axis_shown_as_rounded (fun _ => None)
           (fdiv (float_of_Z (-2)) (float_of_Z 3)) DEADZONE false); reflexivity.
Defined.

(** Rounding keeps the sign. *)
Lemma sign_round_aux (mx ex : Z) (lx : location) :
  0 <= mx -> sign_bit (binary_round_aux prec emax false mx ex lx) = false.
Proof.
  intro H.
  destruct (binary_round_aux_shape false mx ex lx H) as [E|[E|(m & e & _ & _ & E)]];
    rewrite E; try reflexivity.
  destruct (e <=? emax - prec); reflexivity.
Qed.

Lemma sign_normalize (m e : Z) :
  0 <= m -> sign_bit (binary_normalize prec emax m e false) = false.
Proof.
  intro H; unfold binary_normalize.
  destruct m as [|p|p]; [reflexivity | | lia].
  unfold binary_round.
  destruct (shl_align p e (fexp prec emax (Zpos (digits2_pos p) + e))) as [mz ez].
  apply sign_round_aux; lia.
Qed.

Lemma fmul_sign (x y : float) :
  sign_bit x = false -> sign_bit y = false -> sign_bit (fmul x y) = false.
Proof.
  unfold fmul, SFmul.
  destruct x as [sx|sx| |sx mx ex], y as [sy|sy| |sy my ey]; cbn [sign_bit];
    intros Hx Hy; subst; try reflexivity.
  apply sign_round_aux; lia.
Qed.

(** Adding a positive number to an unsigned one. *)
Lemma fadd_sign_pos (x : float) (my : positive) (ey : Z) :
  sign_bit x = false -> sign_bit (fadd x (S754_finite false my ey)) = false.
Proof.
  unfold fadd, SFadd.
  destruct x as [sx|sx| |sx mx ex]; cbn [sign_bit]; intros Hs; try reflexivity;
    try exact Hs.
  subst sx; cbv zeta; apply sign_normalize; cbn [cond_Zopp]; lia.
Qed.

(** Adding a positive number to a negative one that is no larger in
    magnitude. *)
Lemma fadd_sign_neg (m my : positive) (e ey : Z) :
  e <= ey -> Zpos m <= Zpos my * 2 ^ (ey - e) ->
  sign_bit (fadd (S754_finite true m e) (S754_finite false my ey)) = false.
Proof.
  intros He Hm; unfold fadd, SFadd; cbv zeta.
  apply sign_normalize.
  rewrite Z.min_l by exact He.
  unfold shl_align; rewrite Z.sub_diag.
  cbn [fst cond_Zopp].
  destruct (e - ey) as [|d|d] eqn:D; cbn [fst].
  - replace (ey - e) with 0 in Hm by lia. rewrite Z.mul_1_r in Hm. lia.
  - lia.
  - change (Pos.iter xO my d) with (shift_pos d my).
    rewrite Zpower.shift_pos_correct.
    replace (ey - e) with (Zpos d) in Hm by lia.
    change (Zpower_pos 2 d) with (2 ^ Zpos d).
    rewrite (Z.mul_comm (2 ^ Zpos d)). lia.
Qed.

(** At least -1.0: a negative finite number has a magnitude of at most
    one. *)
Lemma SFleb_neg_neg (m m' : positive) (e e' : Z) :
  SFleb (S754_finite true m' e') (S754_finite true m e) = true ->
  e < e' \/ (e = e' /\ (m <= m')%positive).
Proof.
  unfold SFleb, SFcompare.
  destruct (Z.compare_spec e' e) as [E|E|E]; [|discriminate|left; lia].
  intro H; right; split; [symmetry; exact E|].
  apply Pos.compare_ge_iff.
  change (Pos.compare_cont Eq m' m) with (Pos.compare m' m) in H.
  destruct (Pos.compare m' m); try discriminate; intro; discriminate.
Qed.

Lemma at_least_minus_one (m : positive) (e : Z) :
  Zpos m < 2 ^ 53 ->
  fge (S754_finite true m e) (float_of_Z (-1)) = true ->
  e <= -52 /\ Zpos m <= Zpos 4503599627370496 * 2 ^ (-52 - e).
Proof.
  intros Hm H; unfold fge in H.
  change (float_of_Z (-1)) with (S754_finite true 4503599627370496 (-52)) in H.
  apply SFleb_neg_neg in H.
  destruct H as [H|[-> H]].
  - split; [lia|].
    rewrite <- two_pow_52, <- Z.pow_add_r by lia.
    assert (2 ^ 53 <= 2 ^ (52 + (-52 - e))) by (apply Z.pow_le_mono_r; lia).
    apply Z.lt_le_incl; eapply Z.lt_le_trans; eassumption.
  - split; [reflexivity|].
    change (-52 - -52) with 0; rewrite Z.pow_0_r, Z.mul_1_r.
    apply Pos2Z.pos_le_pos; exact H.
Qed.

(** A trigger whose raw reading is at least -1.0 reads a whole number of
    thousandths between 0.0 and 1.0. *)
Theorem trigger_in_unit_range (raw dead : float) :
  valid_binary prec emax raw = true ->
  fge raw (float_of_Z (-1)) = true ->
  exists k,
    0 <= k <= 1000
    /\ _axis raw dead true = grid 3 false k
    /\ fge (_axis raw dead true) (S754_zero false) = true
    /\ fge (float_of_Z 1) (_axis raw dead true) = true.
Proof.
  intros Hraw Hge; apply valid_small in Hraw; unfold _axis; cbv zeta.
  set (v1 := if SFltb (SFabs raw) dead then S754_zero false else raw).
  set (v2 := fmul (fadd v1 (float_of_Z 1)) (fdiv (float_of_Z 1) (float_of_Z 2))).
  assert (Hs : sign_bit v2 = false).
  { subst v2; apply fmul_sign; [|reflexivity].
    change (float_of_Z 1) with (S754_finite false 4503599627370496 (-52)).
    subst v1; destruct (SFltb (SFabs raw) dead); [reflexivity|].
    destruct raw as [s|s| |s m e].
    - reflexivity.
    - destruct s; [discriminate Hge | reflexivity].
    - reflexivity.
    - destruct s; [|apply fadd_sign_pos; reflexivity].
      destruct (at_least_minus_one m e Hraw Hge) as [He Hm].
      apply fadd_sign_neg; assumption. }
  assert (Hv : small_mantissa v2) by (subst v2; apply fmul_small).
  destruct (clamp_round v2 Hv) as (s & k & Hk & E & Hsign).
  destruct s; [rewrite Hs in Hsign; discriminate (Hsign eq_refl)|].
  exists k; rewrite E.
  destruct (grid_in_range false k Hk) as (_ & H2 & H3); auto.
Qed.

Lemma trigger_in_unit_range_witness :
  exists k,
    0 <= k <= 1000
    /\ _axis (fdiv (float_of_Z (-1)) (float_of_Z 3)) DEADZONE true = grid 3 false k
    /\ fge (_axis (fdiv (float_of_Z (-1)) (float_of_Z 3)) DEADZONE true) (S754_zero false) = true
    /\ fge (float_of_Z 1) (_axis (fdiv (float_of_Z (-1)) (float_of_Z 3)) DEADZONE true) = true.
Proof.
  apply (trigger_in_unit_range (fdiv (float_of_Z (-1)) (float_of_Z 3)) DEADZONE);
    reflexivity.
Defined.

End Controller.

(* ===================================================================== *)
(** * Sfinx.py: the two gates of the loop *)
(* ===================================================================== *)

Module Gates.
Import Py Sfinx Sender FloatFacts.

(** A finite positive number that is not [>= 1.0 / POLL_HZ] has an
    exponent of at most -58, that of [1.0 / 60.0]. *)
Lemma below_rate_exponent (m : positive) (e : Z) :
  fge (S754_finite false m e) (fdiv (float_of_Z 1) POLL_HZ) = false -> e <= -58.
Proof.
  unfold fge.
  change (fdiv (float_of_Z 1) POLL_HZ) with (S754_finite false 4803839602528529 (-58)).
  unfold SFleb, SFcompare.
  destruct (Z.compare_spec (-58) e) as [E|E|E]; [lia | discriminate | lia].
Qed.

(** A product of a number with a small exponent by 1000.0 is not
    [>= 500.0]. *)
Lemma small_product_below_500 (s : bool) (m : positive) (e : Z) :
  Zpos m < 2 ^ 53 -> e <= -58 ->
  fge (fmul (S754_finite s m e) (float_of_Z 1000)) (float_of_Z HEARTBEAT_MS) = false.
Proof.
  intros Hm He; unfold fge, fmul.
  change (float_of_Z 1000) with (S754_finite false 8796093022208000 (-43)).
  change (float_of_Z HEARTBEAT_MS) with (S754_finite false 8796093022208000 (-44)).
  unfold SFmul.
  assert (H0 : 0 <= Zpos (m * 8796093022208000)) by lia.
  destruct (binary_round_aux_shape (xorb s false) (Zpos (m * 8796093022208000))
              (e + -43) loc_Exact H0) as [E|[E|(m' & e' & He' & _ & E)]];
    rewrite E; [reflexivity | reflexivity |].
  assert (Hd : Zdigits2 (Zpos (m * 8796093022208000)) <= 106).
  { apply Zdigits2_le; [lia | lia |].
    rewrite Pos2Z.inj_mul.
    assert (Zpos 8796093022208000 < 2 ^ 53) by (vm_compute; reflexivity).
    replace (2 ^ 106) with (2 ^ 53 * 2 ^ 53) by (vm_compute; reflexivity).
    apply Z.mul_lt_mono_nonneg; lia. }
  destruct (fexp_bounds (Zdigits2 (Zpos (m * 8796093022208000)) + (e + -43)))
    as (_ & _ & Hf).
  assert (He'' : e' <= -45) by lia.
  replace (e' <=? emax - prec) with true
    by (symmetry; apply Z.leb_le; unfold emax, prec; lia).
  unfold SFleb, SFcompare.
  destruct (xorb s false); [reflexivity|].
  destruct (Z.compare_spec (-44) e') as [E'|E'|E']; [lia | lia | reflexivity].
Qed.

(** The idle gate asks for more than the rate gate: an elapsed time that
    is not [>= 1.0 / POLL_HZ] is, in milliseconds, not [>= HEARTBEAT_MS]. *)
Lemma idle_implies_rate (d : float) :
  small_mantissa d ->
  fge d (fdiv (float_of_Z 1) POLL_HZ) = false ->
  fge (fmul d (float_of_Z 1000)) (float_of_Z HEARTBEAT_MS) = false.
Proof.
  intros Hd H.
  destruct d as [s|s| |s m e].
  - destruct s; reflexivity.
  - destruct s; [reflexivity | discriminate H].
  - reflexivity.
  - destruct s.
    + unfold fge, fmul.
      change (float_of_Z 1000) with (S754_finite false 8796093022208000 (-43)).
      change (float_of_Z HEARTBEAT_MS) with (S754_finite false 8796093022208000 (-44)).
      unfold SFmul.
      assert (H0 : 0 <= Zpos (m * 8796093022208000)) by lia.
      destruct (binary_round_aux_shape (xorb true false) (Zpos (m * 8796093022208000))
                  (e + -43) loc_Exact H0) as [E|[E|(m' & e' & _ & _ & E)]];
        rewrite E; try reflexivity.
      destruct (e' <=? emax - prec); reflexivity.
    + apply small_product_below_500; [exact Hd|].
      apply (below_rate_exponent m); exact H.
Qed.

(** When the last message was a sample ([last_send] and [last_any] are the
    same reading of the clock), the idle gate cannot open while the rate
    gate is shut. *)
Lemma no_idle_after_sample (enable_control : bool) (st : loop_state) (tk : tick) :
  last_send st = last_any st ->
  small_mantissa (last_any st) -> small_mantissa (now tk) ->
  rate_gate enable_control st tk = false ->
  idle_gate enable_control st tk = false.
Proof.
  unfold rate_gate, idle_gate; intros E Hl Hn H; rewrite E in H.
  destruct (enable_control && sock (control st)); [|reflexivity].
  cbn [andb] in *.
  apply idle_implies_rate; [apply fsub_small; assumption | exact H].
Qed.

(** From such a state on, every message handed to the socket is a
    sample. *)
Lemma loop_samples_only (enable_control : bool) (ticks : list tick) :
  Forall (fun tk => valid_binary prec emax (now tk) = true) ticks ->
  forall st,
    last_send st = last_any st -> small_mantissa (last_any st) ->
    Forall (fun o => is_input o = true) (attempts (snd (loop enable_control st ticks))).
Proof.
  induction 1 as [|tk ticks Hv Hvs IH]; intros st E Hl; [constructor|].
  rewrite loop_cons; cbn [snd]; rewrite attempts_app.
  apply valid_small in Hv.
  apply Forall_app; split.
  - destruct (iteration_cases enable_control st tk)
      as [(_ & Ha & _)|[(Hr & Hi & _)|(_ & _ & Hit)]].
    + rewrite Ha; constructor; [reflexivity | constructor].
    + rewrite (no_idle_after_sample enable_control st tk E Hl Hv Hr) in Hi; discriminate.
    + rewrite Hit; constructor.
  - apply IH;
      destruct (iteration_cases enable_control st tk)
        as [(_ & _ & _ & _ & Hs & Ha)|[(Hr & Hi & _)|(_ & _ & Hit)]].
    + congruence.
    + rewrite (no_idle_after_sample enable_control st tk E Hl Hv Hr) in Hi; discriminate.
    + rewrite Hit; exact E.
    + rewrite Ha; exact Hv.
    + rewrite (no_idle_after_sample enable_control st tk E Hl Hv Hr) in Hi; discriminate.
    + rewrite Hit; exact Hl.
Qed.

Lemma loop_after_sample (enable_control : bool) (ticks : list tick) :
  Forall (fun tk => valid_binary prec emax (now tk) = true) ticks ->
  forall st pre o post,
    attempts (snd (loop enable_control st ticks)) = pre ++ o :: post ->
    is_input o = true ->
    Forall (fun o' => is_input o' = true) post.
Proof.
  induction 1 as [|tk ticks Hv Hvs IH]; intros st pre o post Ha Ho.
  - destruct pre; discriminate Ha.
  - rewrite loop_cons in Ha; cbn [snd] in Ha; rewrite attempts_app in Ha.
    destruct (iteration_cases enable_control st tk)
      as [(_ & Hi & _ & _ & Hs & Hl)|[(_ & _ & Hi & _)|(_ & _ & Hit)]].
    + rewrite Hi in Ha; cbn [app] in Ha.
      destruct pre as [|x pre]; cbn [app] in Ha; injection Ha as _ Ha.
      * rewrite <- Ha.
        apply (loop_samples_only enable_control ticks Hvs); [congruence|].
        rewrite Hl; apply valid_small; exact Hv.
      * exact (IH _ _ _ _ Ha Ho).
    + rewrite Hi in Ha; cbn [app] in Ha.
      destruct pre as [|x pre]; cbn [app] in Ha; injection Ha as Hx Ha.
      * rewrite <- Hx in Ho; discriminate Ho.
      * exact (IH _ _ _ _ Ha Ho).
    + rewrite Hit in Ha; cbn [attempts app fst snd] in Ha.
      exact (IH _ _ _ _ Ha Ho).
Qed.

(** Once [run] has handed one sample to the socket, it never hands it a
    heartbeat again: with [last_send = last_any], an elapsed time that
    opens the idle gate (500 ms) has opened the rate gate (1/60 s) before
    it. *)
Theorem no_heartbeat_after_a_sample (enable_control connect_ok : bool) (t0 : float)
    (ticks : list tick) (pre post : list value) (o : value) :
  Forall (fun tk => valid_binary prec emax (now tk) = true) ticks ->
  attempts (snd (run enable_control connect_ok t0 ticks)) = pre ++ o :: post ->
  is_input o = true ->
  Forall (fun o' => is_input o' = true /\ is_heartbeat o' = false) post.
Proof.
  intros Hv Ha Ho.
  destruct (Wire.run_attempts enable_control connect_ok t0 ticks) as (st0 & E & _).
  rewrite E in Ha.
  apply (loop_after_sample enable_control ticks Hv) in Ha; [|exact Ho].
  eapply Forall_impl; [|exact Ha].
  intros o' H; split; [exact H|].
  unfold is_input, is_heartbeat in *.
  destruct (msg_type o') as [| | | |s| |]; try discriminate H.
  cbn [eq_str] in *. apply PyFacts.str_eqb_eq in H; subst s; reflexivity.
Qed.

Lemma no_heartbeat_after_a_sample_witness :
  Forall (fun o' => is_input o' = true /\ is_heartbeat o' = false)
    (tl (attempts (snd (run true true (float_of_Z 0) (steady_ticks 3))))).
Proof.
  apply (no_heartbeat_after_a_sample true true (float_of_Z 0) (steady_ticks 3) []
           (tl (attempts (snd (run true true (float_of_Z 0) (steady_ticks 3)))))
           (hd VNone (attempts (snd (run true true (float_of_Z 0) (steady_ticks 3)))))).
  - repeat constructor.
  - reflexivity.
  - reflexivity.
Defined.

End Gates.
